(** * Zoom-region locator of the SEM figure tooling

  A shallow embedding of
  [plugins/publication-figures/scripts/sem/template_matching.py]
  ([find_zoom_region], [_sobel_magnitude], [_downsample], [_fft_correlate],
  [_naive_correlate], [validate_zoom_match]) and the properties its
  specification states about it.

  Samples, scale factors and correlation scores are IEEE binary64 values
  (Rocq's primitive [float], the type behind numpy's [float64] and Python's
  [float]); array shapes and positions are natural numbers, box coordinates
  are integers.  Python exceptions are values of [exn] carried by [result].
  The optional libraries (scipy, scikit-image) are fields of an environment
  [Env]: a missing library is [None] and its import raises [ImportError]. *)

From Stdlib Require Import ZArith List Bool Lia Floats.
From Stdlib Require Uint63.
Import ListNotations.

(* ================================================================== *)
(** ** Python values: exceptions, integers and floats *)

Module Py.

(** Why a [ValueError] was raised. *)
Inductive value_error :=
| NanToInt            (* int(nan) *)
| NegativeSamples     (* np.linspace(.., num < 0) *)
| EmptyReduction      (* np.max / np.argmax of a zero-size array *)
| IndexOutOfBounds    (* np.unravel_index past the end *)
| BroadcastMismatch.  (* operands could not be broadcast together *)

(** [NoMatchFound] is the
    [ValueError("Could not find zoom region - no correlation peak found")]
    of [find_zoom_region]. *)
Inductive exn :=
| NoMatchFound
| ImportError
| ZeroDivisionError
| OverflowError
| ValueError (why : value_error).

Inductive result (A : Type) :=
| Ok (a : A)
| Raise (e : exn).
Arguments Ok {A} a.
Arguments Raise {A} e.

Definition bind {A B} (r : result A) (k : A -> result B) : result B :=
  match r with
  | Ok a => k a
  | Raise e => Raise e
  end.

(** int -> float, as [float(n)]: exact below 2^53 in magnitude. *)
Definition float_of_Z (z : Z) : float :=
  match z with
  | Z0 => 0%float
  | Zpos _ => of_uint63 (Uint63.of_Z z)
  | Zneg _ => PrimFloat.opp (of_uint63 (Uint63.of_Z (- z)))
  end.

Definition float_of_nat (n : nat) : float := float_of_Z (Z.of_nat n).

(** [int(f)]: truncation toward zero; [nan] and the infinities raise. *)
Definition int (f : float) : result Z :=
  match Prim2SF f with
  | S754_zero _ => Ok 0%Z
  | S754_finite s m e =>
      let a := if (0 <=? e)%Z then Z.shiftl (Zpos m) e
               else Z.shiftr (Zpos m) (- e) in
      Ok (if s then (- a)%Z else a)
  | S754_infinity _ => Raise OverflowError
  | S754_nan => Raise (ValueError NanToInt)
  end.

(** The right operand of [n / factor]: dividing by a Python [float] zero
    raises, dividing by a numpy [float64] zero gives an infinity or nan. *)
Inductive number :=
| PyFloat (f : float)
| NpFloat64 (f : float).

Definition int_truediv (n : nat) (d : number) : result float :=
  match d with
  | PyFloat f =>
      if PrimFloat.eqb f 0 then Raise ZeroDivisionError
      else Ok (float_of_nat n / f)%float
  | NpFloat64 f => Ok (float_of_nat n / f)%float
  end.

(** Slice bounds [a[start:stop]] on a sequence of length [len]: a negative
    index counts from the end, and both ends are clamped to [0, len]. *)
Definition slice_index (len : nat) (i : Z) : nat :=
  if (i <? 0)%Z then Z.to_nat (Z.max 0 (i + Z.of_nat len))
  else Z.to_nat (Z.min i (Z.of_nat len)).

Definition slice_len (len : nat) (start stop : Z) : nat :=
  slice_index len stop - slice_index len start.

Definition slice {X} (l : list X) (start stop : Z) : list X :=
  let lo := slice_index (length l) start in
  firstn (slice_index (length l) stop - lo) (skipn lo l).

End Py.
Export Py.

Declare Scope py_scope.
Notation "x <- e ;; k" := (Py.bind e (fun x => k))
(at level 61, e at next level, right associativity) : py_scope.
Notation "' p <- e ;; k" := (Py.bind e (fun p => k))
(at level 61, p pattern, e at next level, right associativity) : py_scope.
Open Scope py_scope.

(* ================================================================== *)
(** ** numpy: two-dimensional float arrays *)

Module Np.

(** A 2-D array: its shape and its rows.  The shape is kept beside the
    rows because numpy distinguishes the empty shapes [(0, w)]. *)
Record ndarray := mk_ndarray {
  shape : nat * nat;
  rows : list (list float)
}.

Definition size (a : ndarray) : nat := fst (shape a) * snd (shape a).
Definition flatten (a : ndarray) : list float := concat (rows a).

Definition map_arr (f : float -> float) (a : ndarray) : ndarray :=
  {| shape := shape a; rows := map (map f) (rows a) |}.

(** [np.array([[0]])]. *)
Definition zero_1x1 : ndarray := {| shape := (1, 1); rows := [[0%float]] |}.

(** An array given by its entries: [np.zeros((h, w))] filled in a double
    loop over [range(h)] and [range(w)]. *)
Definition tabulate (h w : nat) (f : nat -> nat -> float) : ndarray :=
  {| shape := (h, w);
     rows := map (fun i => map (fun j => f i j) (seq 0 w)) (seq 0 h) |}.

(** Sums run left to right (numpy's pairwise order may differ in the last
    bits of a long sum). *)
Definition sum (l : list float) : float := fold_left PrimFloat.add l 0%float.
Definition dot (a b : list float) : float :=
  sum (map (fun p => (fst p * snd p)%float) (combine a b)).

(** [np.mean], [np.std] over all entries (an empty array gives 0/0 = nan). *)
Definition mean (a : ndarray) : float :=
  (sum (flatten a) / float_of_nat (size a))%float.
Definition std (a : ndarray) : float :=
  let m := mean a in
  PrimFloat.sqrt (mean (map_arr (fun x => ((x - m) * (x - m))%float) a)).

Definition sub_scalar (a : ndarray) (c : float) : ndarray :=
  map_arr (fun x => (x - c)%float) a.
Definition div_scalar (a : ndarray) (c : float) : ndarray :=
  map_arr (fun x => (x / c)%float) a.
Definition square (a : ndarray) : ndarray := map_arr (fun x => (x * x)%float) a.
Definition sqrt (a : ndarray) : ndarray := map_arr PrimFloat.sqrt a.

(** Broadcasting of a binary operation on two 2-D arrays. *)
Definition broadcast_dim (a b : nat) : option nat :=
  if a =? b then Some a
  else if a =? 1 then Some b
  else if b =? 1 then Some a
  else None.

Definition stretch {X} (d : X) (from to : nat) (l : list X) : list X :=
  if from =? to then l else repeat (hd d l) to.

Definition binop (f : float -> float -> float) (a b : ndarray) : result ndarray :=
  match broadcast_dim (fst (shape a)) (fst (shape b)),
        broadcast_dim (snd (shape a)) (snd (shape b)) with
  | Some h, Some w =>
      let ext (x : ndarray) :=
        map (stretch 0%float (snd (shape x)) w)
            (stretch [] (fst (shape x)) h (rows x)) in
      Ok {| shape := (h, w);
            rows := map (fun p => map (fun q => f (fst q) (snd q))
                                      (combine (fst p) (snd p)))
                        (combine (ext a) (ext b)) |}
  | _, _ => Raise (ValueError BroadcastMismatch)
  end.

(** [a[y1:y2, x1:x2]]. *)
Definition slice2 (a : ndarray) (y1 y2 x1 x2 : Z) : ndarray :=
  {| shape := (slice_len (fst (shape a)) y1 y2, slice_len (snd (shape a)) x1 x2);
     rows := map (fun r => slice r x1 x2) (slice (rows a) y1 y2) |}.

(** [np.maximum] on scalars, and [np.max] as its reduction: a nan wins. *)
Definition maximum (a b : float) : float :=
  if (b <=? a)%float || is_nan a then a else b.

Definition max (a : ndarray) : result float :=
  match flatten a with
  | [] => Raise (ValueError EmptyReduction)
  | x :: l => Ok (fold_left maximum l x)
  end.

(** [np.argmax] on the flattened array: the first index of the maximum,
    or of the first nan. *)
Fixpoint argmax_from (l : list float) (i : nat) (mp : float) (ind : nat) : nat :=
  match l with
  | [] => ind
  | x :: l' =>
      if is_nan mp then ind
      else if (x <=? mp)%float then argmax_from l' (S i) mp ind
      else argmax_from l' (S i) x i
  end.

Definition argmax (a : ndarray) : result nat :=
  match flatten a with
  | [] => Raise (ValueError EmptyReduction)
  | x :: l => Ok (argmax_from l 1 x 0)
  end.

(** [np.unravel_index(idx, (h, w))]. *)
Definition unravel_index (idx : nat) (shp : nat * nat) : result (nat * nat) :=
  if idx <? fst shp * snd shp
  then Ok (idx / snd shp, idx mod snd shp)
  else Raise (ValueError IndexOutOfBounds).

(** [np.diff(a, axis=1, prepend=a[:, :1])] on one row: the first entry is
    differenced with itself. *)
Fixpoint diffs (prev : float) (l : list float) : list float :=
  match l with
  | [] => []
  | x :: l' => (x - prev)%float :: diffs x l'
  end.
Definition diff_prepend_first (l : list float) : list float :=
  match l with
  | [] => []
  | x :: _ => diffs x l
  end.

Definition sub_rows (r prev : list float) : list float :=
map (fun p => (fst p - snd p)%float) (combine r prev).

(** [np.diff(a, axis=0, prepend=a[:1, :])]: each row minus the row above,
    the first row minus itself. *)
Fixpoint diff_rows (prev : list float) (l : list (list float)) : list (list float) :=
match l with
| [] => []
| r :: l' => sub_rows r prev :: diff_rows r l'
end.

Definition diff_axis1 (a : ndarray) : ndarray :=
{| shape := shape a; rows := map diff_prepend_first (rows a) |}.
Definition diff_axis0 (a : ndarray) : ndarray :=
{| shape := shape a;
   rows := match rows a with
           | [] => []
           | r :: _ => diff_rows r (rows a)
           end |}.

(** [np.linspace(start, stop, num)] (endpoint included). *)
Definition linspace (start stop : float) (num : Z) : result (list float) :=
  if (num <? 0)%Z then Raise (ValueError NegativeSamples)
  else
    let n := Z.to_nat num in
    let div := (num - 1)%Z in
    let delta := (stop - start)%float in
    let y := map float_of_nat (seq 0 n) in
    let y :=
      if (0 <? div)%Z then
        let step := (delta / float_of_Z div)%float in
        if PrimFloat.eqb step 0
        then map (fun v => (v / float_of_Z div * delta)%float) y
        else map (fun v => (v * step)%float) y
      else map (fun v => (v * delta)%float) y in
    let y := map (fun v => (v + start)%float) y in
    Ok (if (1 <? num)%Z then removelast y ++ [stop] else y).

End Np.
Export Np.

(* ================================================================== *)
(** ** The optional libraries *)

Module Lib.

(** What the interpreter can import.  [scipy_signal_correlate2d image template]
    is [correlate2d(image, template, mode='valid')], [None] when it raises. *)
Record Env := mk_Env {
  scipy_ndimage_sobel : option (ndarray -> nat -> ndarray);
  skimage_transform_resize : option (ndarray -> nat * nat -> option bool -> ndarray);
  scipy_signal_correlate2d : option (ndarray -> ndarray -> option ndarray)
}.

(** The libraries' documented shape contracts. *)
Definition sobel_keeps_shape (env : Env) : Prop :=
  forall sobel, scipy_ndimage_sobel env = Some sobel ->
  forall a axis, shape (sobel a axis) = shape a.

Definition resize_gives_shape (env : Env) : Prop :=
  forall resize, skimage_transform_resize env = Some resize ->
  forall a shp aa, shape (resize a shp aa) = shp.

Definition correlate2d_valid_shape (env : Env) : Prop :=
  forall c2d, scipy_signal_correlate2d env = Some c2d ->
  forall image template c, c2d image template = Some c ->
  fst (shape template) <= fst (shape image) ->
  snd (shape template) <= snd (shape image) ->
  shape c = (fst (shape image) - fst (shape template) + 1,
             snd (shape image) - snd (shape template) + 1).

(** *** Reference models of the scipy routines *)

(** A three-tap filter along a list with scipy's default [reflect] boundary
    (the edge sample is repeated). *)
Fixpoint taps3 {X} (f : X -> X -> X -> X) (a b : X) (l : list X) : list X :=
  match l with
  | [] => [f a b b]
  | c :: l' => f a b c :: taps3 f b c l'
  end.

Definition filter3 {X} (f : X -> X -> X -> X) (l : list X) : list X :=
  match l with
  | [] => []
  | x :: l' => taps3 f x x l'
  end.

Definition lift3 (g : float -> float -> float -> float) (a b c : list float)
    : list float :=
  map (fun p => g (fst p) (fst (snd p)) (snd (snd p))) (combine a (combine b c)).

Definition deriv (a b c : float) : float := (c - a)%float.
Definition smooth (a b c : float) : float := (a + 2 * b + c)%float.

(** [scipy.ndimage.sobel(img, axis)]: the derivative [-1, 0, 1] along [axis],
    the smoothing [1, 2, 1] along the other axis. *)
Definition sobel_reflect (a : ndarray) (axis : nat) : ndarray :=
  {| shape := shape a;
     rows := if axis =? 1
             then filter3 (lift3 smooth) (map (filter3 deriv) (rows a))
             else map (filter3 smooth) (filter3 (lift3 deriv) (rows a)) |}.

(** Valid-mode cross-correlation of [image] with a [template] that fits:
    the sum of products at every offset. *)
Definition window_dot (band trows : list (list float)) (tw j : nat) : float :=
  fold_left (fun acc p => (acc + dot (firstn tw (skipn j (fst p))) (snd p))%float)
            (combine band trows) 0%float.

Definition valid_corr (image template : ndarray) : ndarray :=
  let '(ih, iw) := shape image in
  let '(th, tw) := shape template in
  {| shape := (ih - th + 1, iw - tw + 1);
     rows := map (fun i =>
                    let band := firstn th (skipn i (rows image)) in
                    map (window_dot band (rows template) tw) (seq 0 (iw - tw + 1)))
                 (seq 0 (ih - th + 1)) |}.

(** [scipy.signal.correlate2d(image, template, mode='valid')]: one operand
    must be at least as large as the other in both dimensions, else
    [ValueError]; when the template is the larger one the operands are
    swapped and the result reversed along both axes. *)
Definition correlate2d_valid (image template : ndarray) : option ndarray :=
  let '(ih, iw) := shape image in
  let '(th, tw) := shape template in
  if (th <=? ih) && (tw <=? iw) then Some (valid_corr image template)
  else if (ih <=? th) && (iw <=? tw) then
    let c := valid_corr template image in
    Some {| shape := shape c; rows := rev (map (@rev float) (rows c)) |}
  else None.

(** scipy installed, scikit-image not installed. *)
Definition scipy_env : Env :=
  {| scipy_ndimage_sobel := Some sobel_reflect;
     skimage_transform_resize := None;
     scipy_signal_correlate2d := Some correlate2d_valid |}.

End Lib.
Export Lib.

(* ================================================================== *)
(** ** template_matching.py *)

Module TemplateMatching.

(** [_sobel_magnitude]: [sqrt(gx**2 + gy**2)], the gradients from
    [scipy.ndimage.sobel] or, without scipy, from first differences. *)
Definition _sobel_magnitude (env : Env) (img : ndarray) : result ndarray :=
  match scipy_ndimage_sobel env with
  | Some sobel =>
      let gx := sobel img 1 in
      let gy := sobel img 0 in
      s <- binop PrimFloat.add (square gx) (square gy) ;;
      Ok (Np.sqrt s)
  | None =>
      let gx := diff_axis1 img in
      let gy := diff_axis0 img in
      s <- binop PrimFloat.add (square gx) (square gy) ;;
      Ok (Np.sqrt s)
  end.

(** [_downsample]: the input itself when a new dimension is below 1,
    else [skimage.transform.resize] or block averaging. *)
Definition _downsample (env : Env) (img : ndarray) (factor : number)
    : result ndarray :=
  qh <- int_truediv (fst (shape img)) factor ;;
  new_h <- Py.int qh ;;
  qw <- int_truediv (snd (shape img)) factor ;;
  new_w <- Py.int qw ;;
  if (new_h <? 1)%Z || (new_w <? 1)%Z then Ok img
  else
    let new_h := Z.to_nat new_h in
    let new_w := Z.to_nat new_w in
    match skimage_transform_resize env with
    | Some resize => Ok (resize img (new_h, new_w) (Some true))
    | None =>
        let '(h, w) := shape img in
        let block_h := h / new_h in
        let block_w := w / new_w in
        Ok (tabulate new_h new_w (fun i j =>
              mean (slice2 img (Z.of_nat (i * block_h)) (Z.of_nat ((i + 1) * block_h))
                               (Z.of_nat (j * block_w)) (Z.of_nat ((j + 1) * block_w)))))
    end.

(** [_naive_correlate]: the sliding-window fallback.  [out_h], [out_w] are
    integers and may be negative; then the result is [np.array([[0]])]. *)
Definition _naive_correlate (image template : ndarray) : ndarray :=
  let '(th, tw) := shape template in
  let '(ih, iw) := shape image in
  let out_h := (Z.of_nat ih - Z.of_nat th + 1)%Z in
  let out_w := (Z.of_nat iw - Z.of_nat tw + 1)%Z in
  if (out_h <=? 0)%Z || (out_w <=? 0)%Z then zero_1x1
  else
    let template_flat := flatten template in
    let template_norm :=
      PrimFloat.sqrt (sum (map (fun x => (x * x)%float) template_flat)) in
    tabulate (Z.to_nat out_h) (Z.to_nat out_w) (fun i j =>
      let window :=
        flatten (slice2 image (Z.of_nat i) (Z.of_nat (i + th))
                              (Z.of_nat j) (Z.of_nat (j + tw))) in
      let window_norm :=
        PrimFloat.sqrt (sum (map (fun x => (x * x)%float) window)) in
      if (0 <? window_norm)%float && (0 <? template_norm)%float
      then (dot window template_flat / (window_norm * template_norm))%float
      else 0%float).

(** Zero mean, unit variance: [a = a - mean(a); a = a / (std(a) + 1e-8)]. *)
Definition eps : float := 0x1.5798ee2308c3ap-27%float. (* 1e-8 *)

Definition normalize (a : ndarray) : ndarray :=
  let a := sub_scalar a (mean a) in
  div_scalar a (std a + eps)%float.

(** [_fft_correlate]: scipy's [correlate2d] on the normalized operands,
    [_naive_correlate] when it raises.  The import is outside the [try]. *)
Definition _fft_correlate (env : Env) (image template : ndarray) : result ndarray :=
  match scipy_signal_correlate2d env with
  | None => Raise ImportError
  | Some correlate2d =>
      let template := normalize template in
      let image := normalize image in
      match correlate2d image template with
      | Some corr => Ok corr
      | None => Ok (_naive_correlate image template)
      end
  end.

(** The [best_result] dictionary: its ['scale'] is [None] until a candidate
    is recorded, and then the scale, position and template shape are set
    together. *)
Record recorded_peak := mk_recorded_peak {
  c_scale : float;
  c_position : nat * nat;
  c_template_shape : nat * nat
}.

Record best_result := mk_best {
  best_correlation : float;
  best_found : option recorded_peak
}.

Definition initial_best : best_result :=
  {| best_correlation := (-1)%float; best_found := None |}.

(** The body of [for scale in scales]. *)
Definition scan_scale (env : Env) (low_grad high_grad : ndarray)
    (best : best_result) (scale : float) : result best_result :=
  downsampled <- _downsample env high_grad (NpFloat64 scale) ;;
  if (fst (shape downsampled) <? 10) || (snd (shape downsampled) <? 10)
  then Ok best
  else
    corr <- _fft_correlate env low_grad downsampled ;;
    peak_val <- Np.max corr ;;
    if (best_correlation best <? peak_val)%float then
      idx <- argmax corr ;;
      peak_pos <- unravel_index idx (shape corr) ;;
      Ok {| best_correlation := peak_val;
            best_found := Some {| c_scale := scale;
                                  c_position := peak_pos;
                                  c_template_shape := shape downsampled |} |}
    else Ok best.

Fixpoint scan (env : Env) (low_grad high_grad : ndarray)
    (best : best_result) (scales : list float) : result best_result :=
  match scales with
  | [] => Ok best
  | scale :: rest =>
      best' <- scan_scale env low_grad high_grad best scale ;;
      scan env low_grad high_grad best' rest
  end.

Record match_result := mk_match {
  box : Z * Z * Z * Z;
  scale : float;
  correlation : float;
  center : Z * Z
}.

Definition find_zoom_region (env : Env) (low_mag_img high_mag_img : ndarray)
    (scale_range : float * float) (steps : Z) : result match_result :=
  low_grad <- _sobel_magnitude env low_mag_img ;;
  high_grad <- _sobel_magnitude env high_mag_img ;;
  scales <- linspace (fst scale_range) (snd scale_range) steps ;;
  best <- scan env low_grad high_grad initial_best scales ;;
  match best_found best with
  | None => Raise NoMatchFound
  | Some c =>
      let '(y, x) := c_position c in
      let '(h, w) := c_template_shape c in
      let box := (Z.of_nat x, Z.of_nat y, Z.of_nat (x + w), Z.of_nat (y + h)) in
      cx <- Py.int (float_of_nat x + float_of_nat w / 2)%float ;;
      cy <- Py.int (float_of_nat y + float_of_nat h / 2)%float ;;
      Ok {| box := box;
            scale := c_scale c;
            correlation := best_correlation best;
            center := (cx, cy) |}
  end.

(** The ['message'] of a validation. *)
Inductive message :=
  | EmptyRegion                                   (* 'Empty region - box outside image bounds' *)
  | MatchValidated                                (* 'Match validated' *)
  | BelowThreshold (correlation threshold : float).

Record validation := mk_validation {
  valid : bool;
  v_correlation : float;
  v_message : message
}.

Definition empty_region : validation :=
  {| valid := false; v_correlation := 0%float; v_message := EmptyRegion |}.

Definition validate_zoom_match (env : Env) (low_mag_img high_mag_img : ndarray)
    (box : Z * Z * Z * Z) (threshold : float) : result validation :=
  let '(x1, y1, x2, y2) := box in
  let region := slice2 low_mag_img y1 y2 x1 x2 in
  if size region =? 0 then Ok empty_region
  else
    high_resized <-
      match skimage_transform_resize env with
      | Some resize => Ok (resize high_mag_img (shape region) None)
      | None =>
          _downsample env high_mag_img
            (PyFloat (float_of_nat (fst (shape high_mag_img))
                      / float_of_nat (fst (shape region)))%float)
      end ;;
    let region_norm :=
      div_scalar (sub_scalar region (mean region)) (std region + eps)%float in
    let high_norm :=
      div_scalar (sub_scalar high_resized (mean high_resized))
                 (std high_resized + eps)%float in
    prod <- binop PrimFloat.mul region_norm high_norm ;;
    let correlation := mean prod in
    let valid := (threshold <? correlation)%float in
    Ok {| valid := valid;
          v_correlation := correlation;
          v_message := if valid then MatchValidated
                       else BelowThreshold correlation threshold |}.

End TemplateMatching.
Export TemplateMatching.

(* ================================================================== *)
(** ** Vocabulary of the statements *)

Module Vocabulary.

(** What one scale candidate contributes: [None] when it is skipped (a
    template dimension below 10), else its template, its correlation
    surface and the surface's peak. *)
Definition candidate (env : Env) (low_grad high_grad : ndarray) (scale : float)
    : result (option (ndarray * ndarray * float)) :=
  downsampled <- _downsample env high_grad (NpFloat64 scale) ;;
  if (fst (shape downsampled) <? 10) || (snd (shape downsampled) <? 10)
  then Ok None
  else
    corr <- _fft_correlate env low_grad downsampled ;;
    peak_val <- Np.max corr ;;
    Ok (Some (downsampled, corr, peak_val)).

(** The update of [best_result] by a scored candidate. *)
Definition recorded (best best' : best_result) (scale : float)
    (d corr : ndarray) (p : float) : Prop :=
  if (best_correlation best <? p)%float
  then exists idx pos,
         argmax corr = Ok idx /\ unravel_index idx (shape corr) = Ok pos /\
         best' = {| best_correlation := p;
                    best_found := Some {| c_scale := scale;
                                          c_position := pos;
                                          c_template_shape := shape d |} |}
  else best' = best.

(** The winner: the scan either leaves [best_result] alone, or its final
    value was recorded at some candidate [k], whose peak strictly exceeds
    the initial correlation and differs from every earlier candidate's. *)
Definition winner (env : Env) (low_grad high_grad : ndarray)
    (scales : list float) (best b : best_result) : Prop :=
  exists k s d corr idx pos,
    nth_error scales k = Some s /\
    candidate env low_grad high_grad s = Ok (Some (d, corr, best_correlation b)) /\
    10 <= fst (shape d) /\ 10 <= snd (shape d) /\
    argmax corr = Ok idx /\ unravel_index idx (shape corr) = Ok pos /\
    best_found b = Some {| c_scale := s; c_position := pos;
                           c_template_shape := shape d |} /\
    (best_correlation best <? best_correlation b)%float = true /\
    (forall j s' d' corr' p', j < k -> nth_error scales j = Some s' ->
       candidate env low_grad high_grad s' = Ok (Some (d', corr', p')) -> p' <> best_correlation b).

(** A candidate that records nothing when no candidate has been recorded
    yet: it is skipped, or its surface's peak does not exceed [-1]. *)
Definition unproductive (env : Env) (low_grad high_grad : ndarray) (s : float)
    : Prop :=
  exists o, candidate env low_grad high_grad s = Ok o /\
    match o with
    | None => True
    | Some (_, _, p) => (best_correlation initial_best <? p)%float = false
    end.

(** A skipped candidate: its template has a dimension below 10. *)
Definition skipped (env : Env) (high_grad : ndarray) (s : float) : Prop :=
  exists d, _downsample env high_grad (NpFloat64 s) = Ok d /\
            (fst (shape d) < 10 \/ snd (shape d) < 10).

(** The match [r] was recorded at candidate [k]: scale [s], template [d],
    surface [corr], peak at flat index [idx], i.e. at [(row, col)]. *)
Record won_by (env : Env) (low_grad high_grad : ndarray) (scales : list float)
  (r : match_result) (k : nat) (s : float) (d corr : ndarray)
  (idx row col : nat) : Prop := mk_won_by {
  won_index : nth_error scales k = Some s;
  won_candidate :
    candidate env low_grad high_grad s = Ok (Some (d, corr, correlation r));
  won_template_h : 10 <= fst (shape d);
  won_template_w : 10 <= snd (shape d);
  won_argmax : argmax corr = Ok idx;
  won_position : unravel_index idx (shape corr) = Ok (row, col);
  won_peak_value : nth idx (flatten corr) 0%float = correlation r;
  won_scale : scale r = s;
  won_box : box r = (Z.of_nat col, Z.of_nat row,
                     Z.of_nat (col + snd (shape d)),
                     Z.of_nat (row + fst (shape d)));
  won_center_x :
    Py.int (float_of_nat col + float_of_nat (snd (shape d)) / 2)%float
    = Ok (fst (center r));
  won_center_y :
    Py.int (float_of_nat row + float_of_nat (fst (shape d)) / 2)%float
    = Ok (snd (center r));
  won_above_initial : (best_correlation initial_best <? correlation r)%float = true;
  won_dominates :
    forall j s' d' corr' p',
      nth_error scales j = Some s' ->
      candidate env low_grad high_grad s' = Ok (Some (d', corr', p')) ->
      (correlation r <? p')%float = false;
  won_first :
    forall j s' d' corr' p', j < k ->
      nth_error scales j = Some s' ->
      candidate env low_grad high_grad s' = Ok (Some (d', corr', p')) ->
      p' <> correlation r
}.

(** The invariant as the specification states it. *)
Definition box_inside (low_mag_img : ndarray) (b : Z * Z * Z * Z) : Prop :=
  let '(x1, y1, x2, y2) := b in
  (0 <= x1 < x2 /\ x2 <= Z.of_nat (snd (shape low_mag_img)))%Z /\
  (0 <= y1 < y2 /\ y2 <= Z.of_nat (fst (shape low_mag_img)))%Z.


(** The [i]-th sample of [np.linspace(start, stop, num)] in closed form:
    [start + i * step] with [step = (stop - start) / (num - 1)], and the end
    point itself in the last place. *)
Definition linspace_value (start stop : float) (num : Z) (i : nat) : float :=
  let div := (num - 1)%Z in
  let delta := (stop - start)%float in
  if (Z.of_nat i + 1 =? num)%Z && (1 <? num)%Z then stop
  else if (0 <? div)%Z then
    let step := (delta / float_of_Z div)%float in
    if PrimFloat.eqb step 0
    then (float_of_nat i / float_of_Z div * delta + start)%float
    else (float_of_nat i * step + start)%float
  else (float_of_nat i * delta + start)%float.

(** The multiplier of [i] in [linspace] is finite and, between two or more
    samples, not zero; and [start] is not the negative zero. *)
Definition linspace_regular (start stop : float) (num : Z) : Prop :=
  let delta := (stop - start)%float in
  let m := if (0 <? num - 1)%Z then (delta / float_of_Z (num - 1))%float else delta in
  is_finite m = true /\
  ((0 <? num - 1)%Z = true -> PrimFloat.eqb m 0 = false) /\
  Prim2SF start <> S754_zero true.

End Vocabulary.
Export Vocabulary.

(* ================================================================== *)
(** ** Sample images *)

Module Samples.

(** A bright band in the columns below [k] on a dark background. *)
Definition band_left (h w k : nat) : ndarray :=
  tabulate h w (fun _ j => if j <? k then 1%float else 0%float).

(** A bright band in the columns from [k] on. *)
Definition band_right (h w k : nat) : ndarray :=
  tabulate h w (fun _ j => if k <=? j then 1%float else 0%float).

(** A bright rectangle, rows [r0 .. r1 - 1] and columns [c0 .. c1 - 1]. *)
Definition patch (h w r0 r1 c0 c1 : nat) : ndarray :=
  tabulate h w (fun i j =>
    if (r0 <=? i) && (i <? r1) && (c0 <=? j) && (j <? c1)
    then 1%float else 0%float).

(** An overview with a 6 x 6 particle, and the twofold magnification of its
    region of rows 3 .. 14 and columns 6 .. 17. *)
Definition overview : ndarray := patch 24 24 6 12 9 15.
Definition detail : ndarray := patch 24 24 6 18 6 18.

Definition threshold_default : float := 0x1.3333333333333p-2%float. (* 0.3 *)

(** The match of the sample pair over the scales 1, 2, 3. *)
Definition sample_match : match_result :=
  Eval vm_compute in
    match find_zoom_region scipy_env overview detail (1%float, 3%float) 3 with
    | Ok r => r
    | Raise _ => {| box := (0, 0, 0, 0)%Z; scale := 0%float;
                    correlation := 0%float; center := (0, 0)%Z |}
    end.

End Samples.
Export Samples.

(* ================================================================== *)
(** ** Vocabulary of the further properties *)

Module Further.

(** Neither scipy nor scikit-image installed. *)
Definition bare_env : Env :=
  {| scipy_ndimage_sobel := None;
     skimage_transform_resize := None;
     scipy_signal_correlate2d := None |}.

(** A numpy array holds as many rows as its shape says, each of the width
    its shape says. *)
Definition wf (a : ndarray) : Prop :=
  length (rows a) = fst (shape a) /\
  Forall (fun r => length r = snd (shape a)) (rows a).

(** The image with the value [v] everywhere. *)
Definition constant (h w : nat) (v : float) : ndarray :=
  tabulate h w (fun _ _ => v).

(** A zero or a finite number: neither nan nor an infinity. *)
Definition finite (x : float) : Prop :=
  match Prim2SF x with
  | S754_zero _ | S754_finite _ _ _ => True
  | _ => False
  end.

(** [np.sqrt(np.sum(a.flatten()**2))], the norm [_naive_correlate] takes of
    its template and of each window. *)
Definition norm (a : ndarray) : float :=
  PrimFloat.sqrt (sum (map (fun x => (x * x)%float) (flatten a))).

(** Whether two shapes broadcast against each other. *)
Definition broadcastable (s1 s2 : nat * nat) : bool :=
  match broadcast_dim (fst s1) (fst s2), broadcast_dim (snd s1) (snd s2) with
  | Some _, Some _ => true
  | _, _ => false
  end.

(** The answer of [validate_zoom_match] for a correlation. *)
Definition verdict (correlation threshold : float) : validation :=
  {| valid := (threshold <? correlation)%float;
     v_correlation := correlation;
     v_message := if (threshold <? correlation)%float then MatchValidated
                  else BelowThreshold correlation threshold |}.

(** Whether the scale [s] is skipped by the scan: its template comes out
    with a dimension below 10. *)
Definition is_skipped (env : Env) (low_grad high_grad : ndarray) (s : float)
    : bool :=
  match candidate env low_grad high_grad s with
  | Ok None => true
  | _ => false
  end.

(** The validation of the sample match's box. *)
Definition sample_verdict : validation :=
  Eval vm_compute in
    match validate_zoom_match scipy_env overview detail (6, 3, 18, 15)%Z
            threshold_default with
    | Ok v => v
    | Raise _ => empty_region
    end.

(** The normalization of [validate_zoom_match]:
    [(a - np.mean(a)) / (np.std(a) + 1e-8)], mean and deviation both of [a]
    itself. *)
Definition standardize (a : ndarray) : ndarray :=
  div_scalar (sub_scalar a (mean a)) (std a + eps)%float.

(** Two runs of the locator on the same pair of images, the first with the
    backends [env1] and the second with [env2], are answered alike by the
    libraries: the same libraries import, and the calls the locator makes
    return the same arrays -- [sobel] on either image, [resize] on the
    high-mag gradient map, [correlate2d] on the normalized low-mag gradient
    map and a normalized template.  Nothing is asked of the backends on other
    arguments. *)
Definition reproduces (env1 env2 : Env) (low_mag_img high_mag_img : ndarray)
    : Prop :=
  match scipy_ndimage_sobel env1, scipy_ndimage_sobel env2 with
  | Some sobel1, Some sobel2 =>
      forall axis, sobel1 low_mag_img axis = sobel2 low_mag_img axis /\
                   sobel1 high_mag_img axis = sobel2 high_mag_img axis
  | None, None => True
  | _, _ => False
  end /\
  match skimage_transform_resize env1, skimage_transform_resize env2 with
  | Some resize1, Some resize2 =>
      forall high_grad shp,
        _sobel_magnitude env1 high_mag_img = Ok high_grad ->
        resize1 high_grad shp (Some true) = resize2 high_grad shp (Some true)
  | None, None => True
  | _, _ => False
  end /\
  match scipy_signal_correlate2d env1, scipy_signal_correlate2d env2 with
  | Some correlate2d1, Some correlate2d2 =>
      forall low_grad template,
        _sobel_magnitude env1 low_mag_img = Ok low_grad ->
        correlate2d1 (normalize low_grad) (normalize template)
        = correlate2d2 (normalize low_grad) (normalize template)
  | None, None => True
  | _, _ => False
  end.

(** A scipy whose [correlate2d] answers as the reference one on images of
    24 rows and raises on every other image. *)
Definition overview_scipy_env : Env :=
  {| scipy_ndimage_sobel := Some sobel_reflect;
     skimage_transform_resize := None;
     scipy_signal_correlate2d :=
       Some (fun image template =>
               if fst (shape image) =? 24 then correlate2d_valid image template
               else None) |}.

(** A scipy whose [correlate2d] always raises. *)
Definition raising_env : Env :=
  {| scipy_ndimage_sobel := Some sobel_reflect;
     skimage_transform_resize := None;
     scipy_signal_correlate2d := Some (fun _ _ => None) |}.


End Further.
Export Further.

(* ================================================================== *)
(** * Properties *)

(* ================================================================== *)
(** ** The order of binary64 values *)

Module FloatOrder.

Lemma SFcompare_Lt_trans (a b c : spec_float) :
  SFcompare a b = Some Lt -> SFcompare b c = Some Lt -> SFcompare a c = Some Lt.
Proof.
  destruct a as [sa|sa| |sa ma ea], b as [sb|sb| |sb mb eb],
           c as [sc|sc| |sc mc ec]; simpl; try discriminate;
    repeat match goal with s : bool |- _ => destruct s end;
    simpl; try discriminate; try reflexivity;
    change (Pos.compare_cont Eq) with Pos.compare;
    destruct (Z.compare_spec ea eb), (Z.compare_spec eb ec),
             (Z.compare_spec ea ec);
    try destruct (Pos.compare_spec ma mb); try destruct (Pos.compare_spec mb mc);
    try destruct (Pos.compare_spec ma mc);
    simpl; intros; try discriminate; try reflexivity; exfalso; lia.
Qed.

Lemma SFcompare_antisym (a b : spec_float) :
  SFcompare b a = option_map CompOpp (SFcompare a b).
Proof.
  destruct a as [sa|sa| |sa ma ea], b as [sb|sb| |sb mb eb]; simpl;
    repeat match goal with s : bool |- _ => destruct s end;
    simpl; try reflexivity;
    change (Pos.compare_cont Eq) with Pos.compare;
    rewrite (Z.compare_antisym ea eb), (Pos.compare_antisym ma mb);
    destruct (ea ?= eb)%Z, (ma ?= mb)%positive; reflexivity.
Qed.

Lemma SFcompare_refl (a : spec_float) :
  a <> S754_nan -> SFcompare a a = Some Eq.
Proof.
  destruct a as [s|s| |s m e]; simpl; intros H; try congruence;
    destruct s; try reflexivity;
    change (Pos.compare_cont Eq) with Pos.compare;
    rewrite Z.compare_refl, Pos.compare_refl; reflexivity.
Qed.

Lemma ltb_trans (a b c : float) :
  (a <? b)%float = true -> (b <? c)%float = true -> (a <? c)%float = true.
Proof.
  rewrite !ltb_spec. unfold SFltb.
  destruct (SFcompare (Prim2SF a) (Prim2SF b)) as [[]|] eqn:Hab; try discriminate.
  destruct (SFcompare (Prim2SF b) (Prim2SF c)) as [[]|] eqn:Hbc; try discriminate.
  intros _ _. now rewrite (SFcompare_Lt_trans _ _ _ Hab Hbc).
Qed.

Lemma ltb_irrefl (a : float) : (a <? a)%float = false.
Proof.
  rewrite ltb_spec. unfold SFltb.
  destruct (Prim2SF a) as [s|s| |s m e] eqn:E.
  1,2,4: rewrite SFcompare_refl by discriminate; reflexivity.
  reflexivity.
Qed.

Lemma is_nan_false (a : float) : is_nan a = false -> Prim2SF a <> S754_nan.
Proof.
  unfold is_nan. rewrite eqb_spec. unfold SFeqb. intros H E.
  rewrite E in H. discriminate.
Qed.

Lemma leb_true_ltb_false (a b : float) :
  (b <=? a)%float = true -> (a <? b)%float = false.
Proof.
  rewrite leb_spec, ltb_spec. unfold SFleb, SFltb.
  rewrite (SFcompare_antisym (Prim2SF b) (Prim2SF a)).
  destruct (SFcompare (Prim2SF b) (Prim2SF a)) as [[]|]; simpl; congruence.
Qed.

Lemma leb_false_ltb_true (a b : float) :
  is_nan a = false -> is_nan b = false ->
  (b <=? a)%float = false -> (a <? b)%float = true.
Proof.
  intros Ha%is_nan_false Hb%is_nan_false.
  rewrite leb_spec, ltb_spec. unfold SFleb, SFltb.
  rewrite (SFcompare_antisym (Prim2SF b) (Prim2SF a)).
  destruct (Prim2SF a) as [sa|sa| |sa ma ea], (Prim2SF b) as [sb|sb| |sb mb eb];
    try congruence;
    match goal with
    | |- context [SFcompare ?x ?y] => destruct (SFcompare x y) as [[]|] eqn:E
    end; simpl; try congruence; simpl in E; discriminate.
Qed.

Lemma SFcompare_Eq_Lt_trans (a b c : spec_float) :
  SFcompare a b = Some Eq -> SFcompare b c = Some Lt -> SFcompare a c = Some Lt.
Proof.
  destruct a as [sa|sa| |sa ma ea], b as [sb|sb| |sb mb eb],
           c as [sc|sc| |sc mc ec]; simpl; try discriminate;
    repeat match goal with s : bool |- _ => destruct s end;
    simpl; try discriminate; try reflexivity;
    change (Pos.compare_cont Eq) with Pos.compare;
    destruct (Z.compare_spec ea eb), (Z.compare_spec eb ec),
             (Z.compare_spec ea ec);
    try destruct (Pos.compare_spec ma mb); try destruct (Pos.compare_spec mb mc);
    try destruct (Pos.compare_spec ma mc);
    simpl; intros; try discriminate; try reflexivity; exfalso; lia.
Qed.

Lemma leb_ltb_trans (a b c : float) :
  (a <=? b)%float = true -> (b <? c)%float = true -> (a <? c)%float = true.
Proof.
  rewrite leb_spec, !ltb_spec. unfold SFleb, SFltb.
  destruct (SFcompare (Prim2SF a) (Prim2SF b)) as [[]|] eqn:Hab; try discriminate;
  destruct (SFcompare (Prim2SF b) (Prim2SF c)) as [[]|] eqn:Hbc; try discriminate;
  intros _ _.
  - now rewrite (SFcompare_Eq_Lt_trans _ _ _ Hab Hbc).
  - now rewrite (SFcompare_Lt_trans _ _ _ Hab Hbc).
Qed.

Lemma SFcompare_Lt_Eq_trans (a b c : spec_float) :
  SFcompare a b = Some Lt -> SFcompare b c = Some Eq -> SFcompare a c = Some Lt.
Proof.
  destruct a as [sa|sa| |sa ma ea], b as [sb|sb| |sb mb eb],
           c as [sc|sc| |sc mc ec]; simpl; try discriminate;
    repeat match goal with s : bool |- _ => destruct s end;
    simpl; try discriminate; try reflexivity;
    change (Pos.compare_cont Eq) with Pos.compare;
    destruct (Z.compare_spec ea eb), (Z.compare_spec eb ec),
             (Z.compare_spec ea ec);
    try destruct (Pos.compare_spec ma mb); try destruct (Pos.compare_spec mb mc);
    try destruct (Pos.compare_spec ma mc);
    simpl; intros; try discriminate; try reflexivity; exfalso; lia.
Qed.

Lemma ltb_leb_trans (a b c : float) :
  (a <? b)%float = true -> (b <=? c)%float = true -> (a <? c)%float = true.
Proof.
  rewrite leb_spec, !ltb_spec. unfold SFleb, SFltb.
  destruct (SFcompare (Prim2SF a) (Prim2SF b)) as [[]|] eqn:Hab; try discriminate;
  destruct (SFcompare (Prim2SF b) (Prim2SF c)) as [[]|] eqn:Hbc; try discriminate;
  intros _ _.
  - now rewrite (SFcompare_Lt_Eq_trans _ _ _ Hab Hbc).
  - now rewrite (SFcompare_Lt_trans _ _ _ Hab Hbc).
Qed.

Lemma is_nan_true_ltb (a b : float) : is_nan a = true -> (a <? b)%float = false.
Proof.
  unfold is_nan. rewrite eqb_spec, ltb_spec. unfold SFeqb, SFltb.
  destruct (Prim2SF a) as [s|s| |s m e] eqn:E; try reflexivity;
    rewrite SFcompare_refl by discriminate; discriminate.
Qed.

End FloatOrder.
Export FloatOrder.

(* ================================================================== *)
(** ** Facts about the numpy operations *)

Module NpFacts.

Lemma maximum_nan (a b : float) : is_nan a = true -> maximum a b = a.
Proof. unfold maximum. intros ->. now rewrite orb_true_r. Qed.

Lemma fold_maximum_nan (l : list float) (a : float) :
  is_nan a = true -> fold_left maximum l a = a.
Proof.
  induction l as [|x l IH]; simpl; intros H; [reflexivity|].
  rewrite (maximum_nan _ _ H). now apply IH.
Qed.

Lemma fold_maximum_In (l : list float) (a : float) :
  In (fold_left maximum l a) (a :: l).
Proof.
  revert a. induction l as [|x l IH]; simpl; intros a; [now left|].
  destruct (IH (maximum a x)) as [H|H]; [|now right; right].
  unfold maximum in H at 1.
  destruct ((x <=? a)%float || is_nan a); [now left | now right; left].
Qed.

(** The index found by [np.argmax] holds the value found by [np.max]. *)
Lemma argmax_from_value (l pre : list float) (mp : float) (ind : nat) :
  nth ind (pre ++ l) 0%float = mp ->
  nth (argmax_from l (length pre) mp ind) (pre ++ l) 0%float
  = fold_left maximum l mp.
Proof.
  revert pre mp ind.
  induction l as [|x l IH]; simpl; intros pre mp ind H; [exact H|].
  destruct (is_nan mp) eqn:Hn.
  - rewrite (maximum_nan _ _ Hn), fold_maximum_nan by exact Hn. exact H.
  - unfold maximum at 2. rewrite Hn, orb_false_r.
    replace (pre ++ x :: l) with ((pre ++ [x]) ++ l) in *
      by now rewrite <- app_assoc.
    replace (S (length pre)) with (length (pre ++ [x]))
      by (rewrite length_app; simpl; lia).
    destruct (x <=? mp)%float.
    + now apply IH.
    + apply IH. rewrite app_nth1 by (rewrite length_app; simpl; lia).
      now rewrite nth_middle.
Qed.

Lemma max_argmax (a : ndarray) (p : float) :
  Np.max a = Ok p ->
  exists idx, argmax a = Ok idx /\ nth idx (flatten a) 0%float = p.
Proof.
  unfold Np.max, argmax. destruct (flatten a) as [|x l]; [discriminate|].
  intros [= <-]. eexists; split; [reflexivity|].
  exact (argmax_from_value l [x] x 0 eq_refl).
Qed.

Lemma max_In (a : ndarray) (p : float) :
  Np.max a = Ok p -> In p (flatten a).
Proof.
  unfold Np.max. destruct (flatten a) as [|x l]; [discriminate|].
  intros [= <-]. apply fold_maximum_In.
Qed.

Lemma maximum_not_nan (a x : float) :
  is_nan a = false -> maximum a x = if (x <=? a)%float then a else x.
Proof. unfold maximum. intros ->. now rewrite orb_false_r. Qed.

(** On data without nan, [np.max] is an upper bound of every entry. *)
Lemma fold_maximum_upper (l : list float) (a : float) :
  is_nan a = false -> Forall (fun v => is_nan v = false) l ->
  (forall v, In v l -> (fold_left maximum l a <? v)%float = false) /\
  ((fold_left maximum l a <? a)%float = false).
Proof.
  revert a. induction l as [|x l IH]; simpl; intros a Ha Hl.
  - split; [tauto | apply ltb_irrefl].
  - inversion Hl as [|? ? Hx Hl']; subst.
    rewrite (maximum_not_nan a x Ha).
    destruct (x <=? a)%float eqn:Hle.
    + destruct (IH a Ha Hl') as [H1 H2]. split; [|exact H2].
      intros v [<-|Hv]; [|now apply H1].
      destruct (fold_left maximum l a <? x)%float eqn:E; [|reflexivity].
      pose proof (leb_true_ltb_false _ _ Hle) as Hax.
      destruct (is_nan (fold_left maximum l a)) eqn:Hn.
      * apply is_nan_true_ltb with (b := x) in Hn. congruence.
      * destruct (a <=? fold_left maximum l a)%float eqn:Hle2.
        -- pose proof (leb_ltb_trans _ _ _ Hle2 E). congruence.
        -- pose proof (leb_false_ltb_true _ _ Hn Ha Hle2). congruence.
    + destruct (IH x Hx Hl') as [H1 H2].
      pose proof (leb_false_ltb_true _ _ Ha Hx Hle) as Hax.
      split.
      * intros v [<-|Hv]; [exact H2 | now apply H1].
      * destruct (fold_left maximum l x <? a)%float eqn:E; [|reflexivity].
        now rewrite (ltb_trans _ _ _ E Hax) in H2.
Qed.

Lemma max_upper (a : ndarray) (p : float) :
  Np.max a = Ok p ->
  Forall (fun v => is_nan v = false) (flatten a) ->
  forall v, In v (flatten a) -> (p <? v)%float = false.
Proof.
  unfold Np.max. destruct (flatten a) as [|x l]; [discriminate|].
  intros [= <-] Hall. inversion Hall as [|? ? Hx Hl]; subst.
  destruct (fold_maximum_upper _ _ Hx Hl) as [H1 H2].
  intros v [<-|Hv]; [exact H2 | now apply H1].
Qed.

Lemma unravel_index_bounds (idx : nat) (shp : nat * nat) (r c : nat) :
  unravel_index idx shp = Ok (r, c) ->
  r < fst shp /\ c < snd shp /\ idx = r * snd shp + c.
Proof.
  unfold unravel_index. destruct shp as [h w]; simpl.
  destruct (idx <? h * w) eqn:E; [|discriminate].
  apply Nat.ltb_lt in E. intros [= <- <-].
  assert (w <> 0) by (intros ->; lia).
  repeat split.
  - apply Nat.Div0.div_lt_upper_bound. lia.
  - now apply Nat.mod_upper_bound.
  - rewrite (Nat.div_mod_eq idx w) at 1. lia.
Qed.

Lemma broadcast_dim_same (n : nat) : broadcast_dim n n = Some n.
Proof. unfold broadcast_dim. now rewrite Nat.eqb_refl. Qed.

Lemma binop_same_shape (f : float -> float -> float) (a b : ndarray) :
  shape a = shape b ->
  exists c, binop f a b = Ok c /\ shape c = shape a.
Proof.
  intros H. unfold binop. rewrite <- H, !broadcast_dim_same.
  eexists; split; [reflexivity|]. simpl. now destruct (shape a).
Qed.

Lemma slice_index_nonneg (len : nat) (i : Z) :
  (0 <= i)%Z -> slice_index len i = Nat.min (Z.to_nat i) len.
Proof. unfold slice_index. intros H. destruct (i <? 0)%Z eqn:E; lia. Qed.

End NpFacts.
Export NpFacts.

(* ================================================================== *)
(** ** The scale scan of [find_zoom_region] *)

Module ScanFacts.

Section Scan.

Variable env : Env.
Variables low_grad high_grad : ndarray.

Local Notation "'cand'" := (candidate env low_grad high_grad).
Local Notation "'step'" := (scan_scale env low_grad high_grad).
Local Notation "'run'" := (scan env low_grad high_grad).

Lemma scan_scale_spec (best best' : best_result) (s : float) :
  step best s = Ok best' ->
  exists o, cand s = Ok o /\
    match o with
    | None => best' = best
    | Some (d, corr, p) => recorded best best' s d corr p
    end.
Proof.
  unfold scan_scale, candidate, recorded.
  destruct (_downsample env high_grad (NpFloat64 s)) as [d|e]; simpl; [|discriminate].
  destruct ((fst (shape d) <? 10) || (snd (shape d) <? 10)).
  - intros [= <-]. now exists None.
  - destruct (_fft_correlate env low_grad d) as [corr|e]; simpl; [|discriminate].
    destruct (Np.max corr) as [p|e]; simpl; [|discriminate].
    intros H. exists (Some (d, corr, p)). split; [reflexivity|].
    destruct (best_correlation best <? p)%float; [|now injection H as <-].
    destruct (argmax corr) as [idx|e] eqn:Ha; simpl in *; [|discriminate].
    destruct (unravel_index idx (shape corr)) as [pos|e] eqn:Hu; simpl in *;
      [|discriminate].
    injection H as <-. exists idx, pos. now repeat split.
Qed.

(** A candidate that is skipped, or whose peak does not exceed the best
    correlation so far, leaves [best_result] as it is. *)
Lemma scan_scale_unchanged (best : best_result) (s : float)
  (o : option (ndarray * ndarray * float)) :
  cand s = Ok o ->
  match o with
  | None => True
  | Some (_, _, p) => (best_correlation best <? p)%float = false
  end ->
  step best s = Ok best.
Proof.
  unfold scan_scale, candidate.
  destruct (_downsample env high_grad (NpFloat64 s)) as [d|e]; simpl; [|discriminate].
  destruct ((fst (shape d) <? 10) || (snd (shape d) <? 10)).
  - reflexivity.
  - destruct (_fft_correlate env low_grad d) as [corr|e]; simpl; [|discriminate].
    destruct (Np.max corr) as [p|e]; simpl; [|discriminate].
    intros [= <-] ->. reflexivity.
Qed.

(** After a step no peak of that step's candidate exceeds the best. *)
Lemma scan_scale_dominates (best best' : best_result) (s : float)
  (d corr : ndarray) (p : float) :
  step best s = Ok best' -> cand s = Ok (Some (d, corr, p)) ->
  (best_correlation best' <? p)%float = false.
Proof.
  intros H Hc. destruct (scan_scale_spec _ _ _ H) as (o & Ho & Hr).
  rewrite Hc in Ho. injection Ho as <-. unfold recorded in Hr.
  destruct (best_correlation best <? p)%float eqn:E.
  - destruct Hr as (idx & pos & _ & _ & ->). simpl. apply ltb_irrefl.
  - now subst.
Qed.

Lemma scan_scale_mono (best best' : best_result) (s : float) :
  step best s = Ok best' ->
  best' = best \/ (best_correlation best <? best_correlation best')%float = true.
Proof.
  intros H. destruct (scan_scale_spec _ _ _ H) as ([[[d corr] p]|] & _ & Hr);
    [|now left].
  unfold recorded in Hr. destruct (best_correlation best <? p)%float eqn:E.
  - destruct Hr as (idx & pos & _ & _ & ->). now right.
  - now left.
Qed.

Lemma scan_cons (best : best_result) (s : float) (rest : list float) (b : best_result) :
  run best (s :: rest) = Ok b ->
  exists b1, step best s = Ok b1 /\ run b1 rest = Ok b.
Proof.
  simpl. destruct (step best s) as [b1|e]; simpl; [|discriminate].
  intros H. now exists b1.
Qed.

Lemma scan_mono (scales : list float) (best b : best_result) :
  run best scales = Ok b ->
  b = best \/ (best_correlation best <? best_correlation b)%float = true.
Proof.
  revert best. induction scales as [|s rest IH]; intros best H.
  - injection H as <-. now left.
  - destruct (scan_cons _ _ _ _ H) as (b1 & H1 & H2).
    destruct (scan_scale_mono _ _ _ H1) as [->|Hlt]; [now apply IH|].
    destruct (IH _ H2) as [->|Hlt2]; [now right|].
    right. eapply ltb_trans; eassumption.
Qed.

(** No candidate's peak exceeds the final best correlation. *)
Lemma scan_dominates (scales : list float) (best b : best_result) :
  run best scales = Ok b ->
  forall j s d corr p,
    nth_error scales j = Some s -> cand s = Ok (Some (d, corr, p)) ->
    (best_correlation b <? p)%float = false.
Proof.
  revert best. induction scales as [|s0 rest IH]; intros best H j s d corr p Hj Hc.
  - now destruct j.
  - destruct (scan_cons _ _ _ _ H) as (b1 & H1 & H2).
    destruct j as [|j]; [|now apply (IH _ H2 j s d corr p)].
    injection Hj as ->.
    pose proof (scan_scale_dominates _ _ _ _ _ _ H1 Hc) as Hd.
    destruct (scan_mono _ _ _ H2) as [->|Hlt]; [exact Hd|].
    destruct (best_correlation b <? p)%float eqn:E; [|reflexivity].
    now rewrite (ltb_trans _ _ _ Hlt E) in Hd.
Qed.

(** Every candidate of a scan that ends was evaluated without error. *)
Lemma scan_candidates_ok (scales : list float) (best b : best_result) :
  run best scales = Ok b ->
  Forall (fun s => exists o, cand s = Ok o) scales.
Proof.
  revert best. induction scales as [|s rest IH]; intros best H; [constructor|].
  destruct (scan_cons _ _ _ _ H) as (b1 & H1 & H2).
  constructor; [|now apply (IH b1)].
  destruct (scan_scale_spec _ _ _ H1) as (o & Ho & _). now exists o.
Qed.

Lemma candidate_not_skipped (s : float) (d corr : ndarray) (p : float) :
  cand s = Ok (Some (d, corr, p)) ->
  _downsample env high_grad (NpFloat64 s) = Ok d /\
  10 <= fst (shape d) /\ 10 <= snd (shape d) /\
  _fft_correlate env low_grad d = Ok corr /\ Np.max corr = Ok p.
Proof.
  unfold candidate.
  destruct (_downsample env high_grad (NpFloat64 s)) as [d0|e]; simpl; [|discriminate].
  destruct ((fst (shape d0) <? 10) || (snd (shape d0) <? 10)) eqn:E; [discriminate|].
  destruct (_fft_correlate env low_grad d0) as [c0|e] eqn:Hc; simpl; [|discriminate].
  destruct (Np.max c0) as [p0|e] eqn:Hm; simpl; [|discriminate].
  intros [= <- <- <-]. apply orb_false_iff in E as [E1 E2].
  apply Nat.ltb_ge in E1, E2. now repeat split.
Qed.

Lemma scan_winner (scales : list float) (best b : best_result) :
  run best scales = Ok b -> b = best \/ winner env low_grad high_grad scales best b.
Proof.
  revert best. induction scales as [|s0 rest IH]; intros best H.
  - injection H as <-. now left.
  - destruct (scan_cons _ _ _ _ H) as (b1 & H1 & H2).
    destruct (IH _ H2) as [->|Hw].
    + (* nothing recorded after the first candidate *)
      destruct (scan_scale_spec _ _ _ H1) as ([[[d corr] p]|] & Ho & Hr);
        [|now left].
      unfold recorded in Hr. destruct (best_correlation best <? p)%float eqn:E;
        [|now left].
      destruct Hr as (idx & pos & Ha & Hu & ->). right.
      destruct (candidate_not_skipped _ _ _ _ Ho) as (_ & Hh & Hw & _).
      exists 0, s0, d, corr, idx, pos. simpl.
      repeat split; try assumption. intros; lia.
    + (* recorded at a later candidate *)
      destruct Hw as (k & s & d & corr & idx & pos & Hk & Hc & Hh & Hwd & Ha & Hu
                      & Hf & Hlt & Hfirst).
      right. exists (S k), s, d, corr, idx, pos.
      repeat split; try assumption.
      * destruct (scan_scale_mono _ _ _ H1) as [->|Hlt1]; [exact Hlt|].
        eapply ltb_trans; eassumption.
      * intros j s' d' corr' p' Hj Hn Hc'. destruct j as [|j].
        -- injection Hn as ->.
           pose proof (scan_scale_dominates _ _ _ _ _ _ H1 Hc') as Hd.
           intros ->. congruence.
        -- apply (Hfirst j s' d' corr' p'); [lia | exact Hn | exact Hc'].
Qed.

End Scan.

End ScanFacts.
Export ScanFacts.

(* ================================================================== *)
(** ** Shapes *)

Module ShapeFacts.

Lemma shape_normalize (a : ndarray) : shape (normalize a) = shape a.
Proof. reflexivity. Qed.

Lemma sobel_magnitude_shape (env : Env) (img : ndarray) :
  sobel_keeps_shape env ->
  exists g, _sobel_magnitude env img = Ok g /\ shape g = shape img.
Proof.
  intros Hs. unfold _sobel_magnitude.
  destruct (scipy_ndimage_sobel env) as [sobel|] eqn:E.
  - destruct (binop_same_shape PrimFloat.add (square (sobel img 1))
                (square (sobel img 0))) as (c & -> & Hc).
    + simpl. now rewrite !(Hs sobel E).
    + simpl. eexists; split; [reflexivity|]. simpl. rewrite Hc. simpl.
      apply (Hs sobel E).
  - destruct (binop_same_shape PrimFloat.add (square (diff_axis1 img))
                (square (diff_axis0 img))) as (c & -> & Hc); [reflexivity|].
    simpl. eexists; split; [reflexivity|]. simpl. now rewrite Hc.
Qed.

Lemma naive_correlate_shape (image template : ndarray) :
  fst (shape template) <= fst (shape image) ->
  snd (shape template) <= snd (shape image) ->
  shape (_naive_correlate image template)
  = (fst (shape image) - fst (shape template) + 1,
     snd (shape image) - snd (shape template) + 1).
Proof.
  unfold _naive_correlate.
  destruct (shape template) as [th tw], (shape image) as [ih iw]; simpl.
  intros Hh Hw.
  destruct ((Z.of_nat ih - Z.of_nat th + 1 <=? 0)%Z
            || (Z.of_nat iw - Z.of_nat tw + 1 <=? 0)%Z) eqn:E.
  - apply orb_true_iff in E as [E|E]; apply Z.leb_le in E; lia.
  - simpl. f_equal; lia.
Qed.


Lemma fft_correlate_shape (env : Env) (image template corr : ndarray) :
  correlate2d_valid_shape env ->
  _fft_correlate env image template = Ok corr ->
  fst (shape template) <= fst (shape image) ->
  snd (shape template) <= snd (shape image) ->
  shape corr = (fst (shape image) - fst (shape template) + 1,
                snd (shape image) - snd (shape template) + 1).
Proof.
  intros Hc. unfold _fft_correlate.
  destruct (scipy_signal_correlate2d env) as [c2d|] eqn:E; [|discriminate].
  destruct (c2d (normalize image) (normalize template)) as [c|] eqn:Ec;
    intros [= <-] Hh Hw.
  - exact (Hc c2d E _ _ _ Ec Hh Hw).
  - exact (naive_correlate_shape (normalize image) (normalize template) Hh Hw).
Qed.

(** The reference scipy routines meet the contracts. *)
Lemma scipy_env_sobel : sobel_keeps_shape scipy_env.
Proof. intros sobel [= <-] a axis. reflexivity. Qed.

Lemma scipy_env_correlate2d : correlate2d_valid_shape scipy_env.
Proof.
  intros c2d [= <-] image template c. unfold correlate2d_valid, valid_corr.
  destruct (shape image) as [ih iw], (shape template) as [th tw]; simpl.
  intros H Hh Hw.
  apply Nat.leb_le in Hh, Hw. rewrite Hh, Hw in H. simpl in H.
  now injection H as <-.
Qed.

End ShapeFacts.
Export ShapeFacts.

(* ================================================================== *)
(** ** The correlation engine *)

(** Where [scipy.signal] imports: for a template no larger than the image
    in either dimension, the correlation engine returns a surface of shape
    [(imageH - templateH + 1, imageW - templateW + 1)], whether scipy's
    [correlate2d] answers or the sliding-window fallback does; the fallback
    alone has that shape too, and at every output position the template
    lies inside the image. *)
Theorem fft_correlate_valid_mode (env : Env) (image template : ndarray) :
  correlate2d_valid_shape env ->
  scipy_signal_correlate2d env <> None ->
  fst (shape template) <= fst (shape image) ->
  snd (shape template) <= snd (shape image) ->
  let out := (fst (shape image) - fst (shape template) + 1,
              snd (shape image) - snd (shape template) + 1) in
  (exists corr, _fft_correlate env image template = Ok corr /\ shape corr = out) /\
  shape (_naive_correlate image template) = out /\
  (forall i j, i < fst out -> j < snd out ->
     i + fst (shape template) <= fst (shape image) /\
     j + snd (shape template) <= snd (shape image)).
Proof.
  intros Hc Himp Hh Hw out. split; [|split].
  - destruct (_fft_correlate env image template) as [corr|e] eqn:E.
    + exists corr. split; [reflexivity|]. now apply (fft_correlate_shape env image template).
    + exfalso. unfold _fft_correlate in E.
      destruct (scipy_signal_correlate2d env) as [c2d|]; [|congruence].
      destruct (c2d (normalize image) (normalize template)); discriminate.
  - now apply naive_correlate_shape.
  - subst out; simpl. intros i j Hi Hj. lia.
Qed.

(** Without [scipy.signal] the import at the head of [_fft_correlate]
    raises: the fallback is reached only when [correlate2d] itself raises. *)
Lemma fft_correlate_without_scipy (env : Env) (image template : ndarray) :
  scipy_signal_correlate2d env = None ->
  _fft_correlate env image template = Raise ImportError.
Proof. intros H. unfold _fft_correlate. now rewrite H. Qed.

Lemma fft_correlate_valid_mode_witness :
  let image := band_left 12 14 3 in
  let template := band_left 10 10 3 in
  (exists corr, _fft_correlate scipy_env image template = Ok corr /\
                shape corr = (3, 5)) /\
  shape (_naive_correlate image template) = (3, 5) /\
  (forall i j, i < 3 -> j < 5 -> i + 10 <= 12 /\ j + 10 <= 14).
Proof.
  apply (fft_correlate_valid_mode scipy_env (band_left 12 14 3) (band_left 10 10 3)).
  - exact scipy_env_correlate2d.
  - discriminate.
  - simpl; lia.
  - simpl; lia.
Defined.

(** C8 at its failing input: a 12 x 14 image and a 10 x 10 template, which
    fits, on an interpreter without [scipy.signal].  The import at the head
    of [_fft_correlate] is outside its [try], so the engine raises
    [ImportError] and no surface is returned, although the sliding-window
    fallback on the same normalized operands has the valid-mode shape
    [(3, 5)]; the edge operator and the resampler, on the same interpreter,
    fall back and answer. *)
Theorem fft_correlate_import_error :
  let image := band_left 12 14 3 in
  let template := band_left 10 10 3 in
  (fst (shape template) <= fst (shape image) /\
   snd (shape template) <= snd (shape image)) /\
  scipy_signal_correlate2d bare_env = None /\
  _fft_correlate bare_env image template = Raise ImportError /\
  shape (_naive_correlate (normalize image) (normalize template))
  = (fst (shape image) - fst (shape template) + 1,
     snd (shape image) - snd (shape template) + 1) /\
  (exists g, _sobel_magnitude bare_env image = Ok g /\ shape g = shape image) /\
  (exists d, _downsample bare_env image (NpFloat64 1) = Ok d /\ shape d = shape image).
Proof.
  cbv zeta. split; [simpl; lia|]. split; [reflexivity|]. split; [reflexivity|].
  split; [reflexivity|]. split.
  - eexists. split; [vm_compute; reflexivity|]. reflexivity.
  - eexists. split; [vm_compute; reflexivity|]. reflexivity.
Qed.

(* ================================================================== *)
(** ** Which exceptions the helpers raise *)

Module RaiseFacts.

Ltac break_match :=
  match goal with
  | |- context [match ?x with _ => _ end] => destruct x eqn:?
  end.

Lemma binop_not_no_match (f : float -> float -> float) (a b : ndarray) :
  binop f a b <> Raise NoMatchFound.
Proof. unfold binop. repeat break_match; discriminate. Qed.

Lemma sobel_magnitude_not_no_match (env : Env) (img : ndarray) :
  _sobel_magnitude env img <> Raise NoMatchFound.
Proof.
  unfold _sobel_magnitude, bind.
  destruct (scipy_ndimage_sobel env) as [sobel|].
  - pose proof (binop_not_no_match PrimFloat.add (square (sobel img 1))
                  (square (sobel img 0))) as H.
    destruct (binop _ _ _); [discriminate | congruence].
  - pose proof (binop_not_no_match PrimFloat.add (square (diff_axis1 img))
                  (square (diff_axis0 img))) as H.
    destruct (binop _ _ _); [discriminate | congruence].
Qed.

Lemma linspace_not_no_match (start stop : float) (num : Z) :
  linspace start stop num <> Raise NoMatchFound.
Proof. unfold linspace. cbv zeta. repeat break_match; discriminate. Qed.

Lemma int_not_no_match (f : float) : Py.int f <> Raise NoMatchFound.
Proof. unfold Py.int. repeat break_match; discriminate. Qed.

Lemma int_truediv_not_no_match (n : nat) (d : number) :
  int_truediv n d <> Raise NoMatchFound.
Proof. unfold int_truediv. repeat break_match; discriminate. Qed.

Lemma downsample_not_no_match (env : Env) (img : ndarray) (f : number) :
  _downsample env img f <> Raise NoMatchFound.
Proof.
  unfold _downsample.
  pose proof (int_truediv_not_no_match (fst (shape img)) f) as H1.
  destruct (int_truediv (fst (shape img)) f) as [qh|e]; simpl; [|congruence].
  pose proof (int_not_no_match qh) as H2.
  destruct (Py.int qh) as [nh|e]; simpl; [|congruence].
  pose proof (int_truediv_not_no_match (snd (shape img)) f) as H3.
  destruct (int_truediv (snd (shape img)) f) as [qw|e]; simpl; [|congruence].
  pose proof (int_not_no_match qw) as H4.
  destruct (Py.int qw) as [nw|e]; simpl; [|congruence].
  repeat break_match; discriminate.
Qed.

Lemma scan_scale_not_no_match (env : Env) (lg hg : ndarray)
  (best : best_result) (s : float) :
  scan_scale env lg hg best s <> Raise NoMatchFound.
Proof.
  unfold scan_scale, bind.
  pose proof (downsample_not_no_match env hg (NpFloat64 s)) as Hd.
  destruct (_downsample env hg (NpFloat64 s)) as [d|e]; [|congruence].
  destruct ((fst (shape d) <? 10) || (snd (shape d) <? 10)); [discriminate|].
  assert (Hc : _fft_correlate env lg d <> Raise NoMatchFound)
    by (unfold _fft_correlate; repeat break_match; discriminate).
  destruct (_fft_correlate env lg d) as [corr|e]; [|congruence].
  assert (Hm : Np.max corr <> Raise NoMatchFound)
    by (unfold Np.max; repeat break_match; discriminate).
  destruct (Np.max corr) as [p|e]; [|congruence].
  destruct (best_correlation best <? p)%float; [|discriminate].
  assert (Ha : argmax corr <> Raise NoMatchFound)
    by (unfold argmax; repeat break_match; discriminate).
  destruct (argmax corr) as [idx|e]; [|congruence].
  unfold unravel_index.
  destruct (idx <? fst (shape corr) * snd (shape corr)); discriminate.
Qed.

Lemma scan_not_no_match (env : Env) (lg hg : ndarray) (scales : list float)
  (best : best_result) :
  scan env lg hg best scales <> Raise NoMatchFound.
Proof.
  revert best. induction scales as [|s rest IH]; intros best; simpl; [discriminate|].
  pose proof (scan_scale_not_no_match env lg hg best s) as Hs.
  destruct (scan_scale env lg hg best s) as [b1|e]; simpl; [apply IH | congruence].
Qed.

End RaiseFacts.
Export RaiseFacts.

(* ================================================================== *)
(** ** When the locator fails *)

Lemma skipped_unproductive (env : Env) (lg hg : ndarray) (s : float) :
  skipped env hg s -> unproductive env lg hg s.
Proof.
  intros (d & Hd & Hs). exists None. split; [|exact I].
  unfold candidate. rewrite Hd. simpl.
  replace ((fst (shape d) <? 10) || (snd (shape d) <? 10)) with true; [reflexivity|].
  symmetry. apply orb_true_iff. destruct Hs as [Hs|Hs]; [left|right];
    now apply Nat.ltb_lt.
Qed.

Lemma scan_unproductive (env : Env) (lg hg : ndarray) (scales : list float) :
  Forall (unproductive env lg hg) scales ->
  scan env lg hg initial_best scales = Ok initial_best.
Proof.
  induction 1 as [|s rest (o & Ho & Hp) _ IH]; [reflexivity|].
  simpl. rewrite (scan_scale_unchanged env lg hg initial_best s o Ho).
  - exact IH.
  - destruct o as [[[d corr] p]|]; [exact Hp | exact I].
Qed.

Lemma scan_nothing_found (env : Env) (lg hg : ndarray) (scales : list float)
  (b : best_result) :
  scan env lg hg initial_best scales = Ok b -> best_found b = None ->
  Forall (unproductive env lg hg) scales.
Proof.
  intros H Hnone.
  assert (b = initial_best) as ->.
  { destruct (scan_winner env lg hg scales initial_best b H) as [->|Hw];
      [reflexivity|].
    destruct Hw as (k & s & d & corr & idx & pos & _ & _ & _ & _ & _ & _ & Hf & _).
    congruence. }
  apply Forall_forall. intros s Hin.
  pose proof (scan_candidates_ok env lg hg scales _ _ H) as Hok.
  rewrite Forall_forall in Hok. destruct (Hok s Hin) as (o & Ho).
  exists o. split; [exact Ho|].
  destruct o as [[[d corr] p]|]; [|exact I].
  destruct (In_nth_error _ _ Hin) as (j & Hj).
  exact (scan_dominates env lg hg scales _ _ H j s d corr p Hj Ho).
Qed.

(** [_downsample] with a numpy scale that takes a dimension below 1 returns
    its input as it is. *)
Lemma downsample_below_one (env : Env) (img : ndarray) (s : float) (nh nw : Z) :
  Py.int (float_of_nat (fst (shape img)) / s)%float = Ok nh ->
  Py.int (float_of_nat (snd (shape img)) / s)%float = Ok nw ->
  (nh < 1 \/ nw < 1)%Z ->
  _downsample env img (NpFloat64 s) = Ok img.
Proof.
  intros Hh Hw Hlt. unfold _downsample. simpl. rewrite Hh. simpl. rewrite Hw. simpl.
  replace ((nh <? 1)%Z || (nw <? 1)%Z) with true; [reflexivity|].
  symmetry. apply orb_true_iff. destruct Hlt; [left|right]; now apply Z.ltb_lt.
Qed.

(** C1, as the code has it.  [find_zoom_region] fails with [NoMatchFound]
    exactly when the gradients and the scales are computed and every scale
    candidate is skipped or has a correlation peak that does not exceed the
    initial best correlation [-1]; in particular it fails so when every
    candidate's template has a dimension below 10.  A scale that takes a
    downsampled dimension below 1 leaves the template at the full high-mag
    size, so it is skipped only when the high-mag image is that small. *)
Theorem find_zoom_region_no_match (env : Env) (low_mag_img high_mag_img : ndarray)
  (scale_range : float * float) (steps : Z) :
  (find_zoom_region env low_mag_img high_mag_img scale_range steps
     = Raise NoMatchFound
   <-> exists low_grad high_grad scales,
         _sobel_magnitude env low_mag_img = Ok low_grad /\
         _sobel_magnitude env high_mag_img = Ok high_grad /\
         linspace (fst scale_range) (snd scale_range) steps = Ok scales /\
         Forall (unproductive env low_grad high_grad) scales) /\
  (forall low_grad high_grad scales,
     _sobel_magnitude env low_mag_img = Ok low_grad ->
     _sobel_magnitude env high_mag_img = Ok high_grad ->
     linspace (fst scale_range) (snd scale_range) steps = Ok scales ->
     Forall (skipped env high_grad) scales ->
     find_zoom_region env low_mag_img high_mag_img scale_range steps
       = Raise NoMatchFound) /\
  (forall high_grad s nh nw,
     Py.int (float_of_nat (fst (shape high_grad)) / s)%float = Ok nh ->
     Py.int (float_of_nat (snd (shape high_grad)) / s)%float = Ok nw ->
     (nh < 1 \/ nw < 1)%Z ->
     _downsample env high_grad (NpFloat64 s) = Ok high_grad /\
     (skipped env high_grad s <->
      fst (shape high_grad) < 10 \/ snd (shape high_grad) < 10)).
Proof.
  assert (Hif : forall lg hg scales,
            _sobel_magnitude env low_mag_img = Ok lg ->
            _sobel_magnitude env high_mag_img = Ok hg ->
            linspace (fst scale_range) (snd scale_range) steps = Ok scales ->
            Forall (unproductive env lg hg) scales ->
            find_zoom_region env low_mag_img high_mag_img scale_range steps
              = Raise NoMatchFound).
  { intros lg hg scales Hl Hh Hs Hall. unfold find_zoom_region.
    rewrite Hl; simpl. rewrite Hh; simpl. rewrite Hs; simpl.
    now rewrite (scan_unproductive env lg hg scales Hall). }
  split; [split|split].
  - unfold find_zoom_region.
    pose proof (sobel_magnitude_not_no_match env low_mag_img) as H1.
    destruct (_sobel_magnitude env low_mag_img) as [lg|e]; simpl; [|congruence].
    pose proof (sobel_magnitude_not_no_match env high_mag_img) as H2.
    destruct (_sobel_magnitude env high_mag_img) as [hg|e]; simpl; [|congruence].
    pose proof (linspace_not_no_match (fst scale_range) (snd scale_range) steps) as H3.
    destruct (linspace _ _ _) as [scales|e]; simpl; [|congruence].
    pose proof (scan_not_no_match env lg hg scales initial_best) as H4.
    destruct (scan env lg hg initial_best scales) as [b|e] eqn:Hscan; simpl;
      [|congruence].
    destruct (best_found b) as [c|] eqn:Hf.
    + destruct (c_position c) as [y x], (c_template_shape c) as [h w].
      pose proof (int_not_no_match (float_of_nat x + float_of_nat w / 2)%float) as H5.
      destruct (Py.int (float_of_nat x + float_of_nat w / 2)%float); simpl;
        [|congruence].
      pose proof (int_not_no_match (float_of_nat y + float_of_nat h / 2)%float) as H6.
      destruct (Py.int (float_of_nat y + float_of_nat h / 2)%float); simpl;
        [discriminate | congruence].
    + intros _. exists lg, hg, scales. repeat split.
      exact (scan_nothing_found env lg hg scales b Hscan Hf).
  - intros (lg & hg & scales & Hl & Hh & Hs & Hall). now apply (Hif lg hg scales).
  - intros lg hg scales Hl Hh Hs Hall. apply (Hif lg hg scales); try assumption.
    eapply Forall_impl; [|exact Hall]. intros s. apply skipped_unproductive.
  - intros hg s nh nw Hh Hw Hlt.
    pose proof (downsample_below_one env hg s nh nw Hh Hw Hlt) as Hd.
    split; [exact Hd|]. unfold skipped. split.
    + intros (d & Hd' & Hs). rewrite Hd in Hd'. now injection Hd' as <-.
    + intros Hs. now exists hg.
Qed.

(** Every candidate skipped: at the scales 3 and 4 the 24 x 24 detail gives
    templates of 8 x 8 and 6 x 6, and the search fails. *)
Example all_skipped_sample :
  find_zoom_region scipy_env overview detail (3%float, 4%float) 2
    = Raise NoMatchFound /\
  exists high_grad,
    _sobel_magnitude scipy_env detail = Ok high_grad /\
    Forall (skipped scipy_env high_grad) [3%float; 4%float].
Proof.
  split; [vm_compute; reflexivity|].
  eexists. split; [vm_compute; reflexivity|].
  repeat constructor; eexists; (split; [vm_compute; reflexivity|]);
    left; vm_compute; lia.
Qed.

(** C1 as the specification states it fails twice.  With
    [scale_range = (1000, 2000)] (here in 2 steps) on a 256 x 256
    high-mag image every downsampled dimension is [int(256 / s) = 0], so
    [_downsample] returns the 256 x 256 gradient map itself, no candidate is
    skipped, and against an equal low-mag image the call returns a match.
    And on a 10 x 10 pair whose edges lie apart the only candidate is
    correlated, its 1 x 1 surface holds a value below [-1], and the call
    fails with [NoMatchFound] although a correlation surface was computed. *)
Lemma find_zoom_region_no_match_counterexample :
  (exists r,
     find_zoom_region scipy_env (band_left 256 256 100) (band_left 256 256 100)
       (1000%float, 2000%float) 2 = Ok r /\
     box r = (0, 0, 256, 256)%Z /\ scale r = 1000%float) /\
  (find_zoom_region scipy_env (band_left 10 10 3) (band_right 10 10 7)
     (1%float, 1%float) 1 = Raise NoMatchFound /\
   exists low_grad high_grad d corr p,
     _sobel_magnitude scipy_env (band_left 10 10 3) = Ok low_grad /\
     _sobel_magnitude scipy_env (band_right 10 10 7) = Ok high_grad /\
     linspace 1 1 1 = Ok [1%float] /\
     candidate scipy_env low_grad high_grad 1 = Ok (Some (d, corr, p)) /\
     shape d = (10, 10) /\ shape corr = (1, 1) /\ (p <? -1)%float = true).
Proof.
  split.
  - eexists. split; [vm_compute; reflexivity|]. split; reflexivity.
  - split; [vm_compute; reflexivity|].
    do 5 eexists. split; [vm_compute; reflexivity|].
    split; [vm_compute; reflexivity|]. split; [reflexivity|].
    split; [vm_compute; reflexivity|]. repeat split.
Qed.

(* ================================================================== *)
(** ** What a returned match is made of *)

Lemma find_zoom_region_won (env : Env) (low_mag_img high_mag_img : ndarray)
  (scale_range : float * float) (steps : Z) (r : match_result) :
  find_zoom_region env low_mag_img high_mag_img scale_range steps = Ok r ->
  exists low_grad high_grad scales k s d corr idx row col,
    _sobel_magnitude env low_mag_img = Ok low_grad /\
    _sobel_magnitude env high_mag_img = Ok high_grad /\
    linspace (fst scale_range) (snd scale_range) steps = Ok scales /\
    won_by env low_grad high_grad scales r k s d corr idx row col.
Proof.
  unfold find_zoom_region.
  destruct (_sobel_magnitude env low_mag_img) as [lg|e]; simpl; [|discriminate].
  destruct (_sobel_magnitude env high_mag_img) as [hg|e]; simpl; [|discriminate].
  destruct (linspace _ _ _) as [scales|e]; simpl; [|discriminate].
  destruct (scan env lg hg initial_best scales) as [b|e] eqn:Hscan; simpl;
    [|discriminate].
  destruct (scan_winner env lg hg scales initial_best b Hscan) as [->|Hw];
    [discriminate|].
  destruct Hw as (k & s & d & corr & idx & [row col] & Hk & Hc & Hh & Hwd & Ha
                  & Hu & Hf & Hlt & Hfirst).
  rewrite Hf. simpl. destruct (shape d) as [h w] eqn:Hd.
  destruct (Py.int (float_of_nat col + float_of_nat w / 2)%float) as [cx|e] eqn:Hx;
    simpl; [|discriminate].
  destruct (Py.int (float_of_nat row + float_of_nat h / 2)%float) as [cy|e] eqn:Hy;
    simpl; [|discriminate].
  intros [= <-].
  exists lg, hg, scales, k, s, d, corr, idx, row, col.
  do 3 (split; [reflexivity|]).
  constructor; simpl; rewrite ?Hd; simpl; trivial.
  - destruct (candidate_not_skipped _ _ _ _ _ _ _ Hc) as (_ & _ & _ & _ & Hmax).
    destruct (max_argmax _ _ Hmax) as (idx' & Ha' & Hv).
    rewrite Ha in Ha'. now injection Ha' as <-.
  - exact (scan_dominates env lg hg scales _ _ Hscan).
Qed.

Lemma sample_match_found :
  find_zoom_region scipy_env overview detail (1%float, 3%float) 3 = Ok sample_match.
Proof. vm_compute. reflexivity. Qed.

(** C7, as the code has it.  A returned match is made from the winning
    candidate: with the peak of its surface at [(row, col)] and its template of shape [(h, w)],
    the box is [(col, row, col + w, row + h)] and the center is
    [(int(col + w / 2), int(row + h / 2))], the division being Python's
    true division and [int] the truncation; the reported scale is that
    candidate's scale and the reported correlation is its surface's value
    at [(row, col)]. *)
Theorem find_zoom_region_box_center (env : Env) (low_mag_img high_mag_img : ndarray)
  (scale_range : float * float) (steps : Z) (r : match_result) :
  find_zoom_region env low_mag_img high_mag_img scale_range steps = Ok r ->
  exists low_grad high_grad d corr idx row col h w,
    _sobel_magnitude env low_mag_img = Ok low_grad /\
    _sobel_magnitude env high_mag_img = Ok high_grad /\
    candidate env low_grad high_grad (scale r) = Ok (Some (d, corr, correlation r)) /\
    argmax corr = Ok idx /\
    unravel_index idx (shape corr) = Ok (row, col) /\
    nth (row * snd (shape corr) + col) (flatten corr) 0%float = correlation r /\
    shape d = (h, w) /\
    box r = (Z.of_nat col, Z.of_nat row, Z.of_nat (col + w), Z.of_nat (row + h)) /\
    Py.int (float_of_nat col + float_of_nat w / 2)%float = Ok (fst (center r)) /\
    Py.int (float_of_nat row + float_of_nat h / 2)%float = Ok (snd (center r)).
Proof.
  intros H.
  destruct (find_zoom_region_won _ _ _ _ _ _ H)
    as (lg & hg & scales & k & s & d & corr & idx & row & col & Hl & Hh & _ & W).
  destruct W as [_ Hcand _ _ Harg Hpos Hval Hscale Hbox Hcx Hcy _ _ _]. subst s.
  exists lg, hg, d, corr, idx, row, col, (fst (shape d)), (snd (shape d)).
  repeat split; try assumption.
  - destruct (unravel_index_bounds _ _ _ _ Hpos) as (_ & _ & <-). exact Hval.
  - now destruct (shape d).
Qed.

Lemma find_zoom_region_box_center_witness :
  exists low_grad high_grad d corr idx row col h w,
    _sobel_magnitude scipy_env overview = Ok low_grad /\
    _sobel_magnitude scipy_env detail = Ok high_grad /\
    candidate scipy_env low_grad high_grad (scale sample_match)
      = Ok (Some (d, corr, correlation sample_match)) /\
    argmax corr = Ok idx /\
    unravel_index idx (shape corr) = Ok (row, col) /\
    nth (row * snd (shape corr) + col) (flatten corr) 0%float
      = correlation sample_match /\
    shape d = (h, w) /\
    box sample_match
      = (Z.of_nat col, Z.of_nat row, Z.of_nat (col + w), Z.of_nat (row + h)) /\
    Py.int (float_of_nat col + float_of_nat w / 2)%float
      = Ok (fst (center sample_match)) /\
    Py.int (float_of_nat row + float_of_nat h / 2)%float
      = Ok (snd (center sample_match)).
Proof.
  apply (find_zoom_region_box_center scipy_env overview detail (1%float, 3%float) 3).
  vm_compute. reflexivity.
Defined.

(** For columns and widths below 128 the center coordinate
    [int(col + w / 2)] is [col + w / 2] in integer division. *)
Example center_truncates_small :
  forallb (fun col =>
    forallb (fun w =>
      match Py.int (float_of_nat col + float_of_nat w / 2)%float with
      | Ok c => (c =? Z.of_nat col + Z.of_nat w / 2)%Z
      | Raise _ => false
      end) (seq 0 128)) (seq 0 128) = true.
Proof. vm_compute. reflexivity. Qed.

(** C7 fails on a template of odd size: a 16 x 16 overview and a 13 x 13
    detail at scale 1.  The peak is at [(row, col) = (1, 2)] and the template
    is 13 x 13, so [col + w / 2 = 8.5] and [row + h / 2 = 7.5]; the center
    returned is [(8, 7)], the truncation of the two. *)
Lemma find_zoom_region_center_counterexample :
  exists r row col h w,
    find_zoom_region scipy_env (patch 16 16 4 9 5 11) (patch 13 13 3 8 3 9)
      (1%float, 1%float) 1 = Ok r /\
    box r = (Z.of_nat col, Z.of_nat row, Z.of_nat (col + w), Z.of_nat (row + h)) /\
    (row, col) = (1, 2) /\ (h, w) = (13, 13) /\
    (float_of_nat col + float_of_nat w / 2 = 8.5)%float /\
    (float_of_nat row + float_of_nat h / 2 = 7.5)%float /\
    center r = (8, 7)%Z /\
    (float_of_Z (fst (center r)) =? float_of_nat col + float_of_nat w / 2)%float = false /\
    (float_of_Z (snd (center r)) =? float_of_nat row + float_of_nat h / 2)%float = false /\
    (2 * fst (center r) <> 2 * Z.of_nat col + Z.of_nat w)%Z /\
    (2 * snd (center r) <> 2 * Z.of_nat row + Z.of_nat h)%Z.
Proof.
  eexists. exists 1, 2, 13, 13. split; [vm_compute; reflexivity|].
  cbn [box center fst snd]. repeat split; try (vm_compute; reflexivity); lia.
Qed.

(** The sample match: the particle's region, at scale 2. *)
Example sample_match_box :
  box sample_match = (6, 3, 18, 15)%Z /\ center sample_match = (12, 9)%Z /\
  scale sample_match = 2%float.
Proof. repeat split. Qed.

(* ================================================================== *)
(** ** The box and the low-mag image *)

(** C2 fails where a template is wider than the low-mag image: an 11 x 10
    overview and a 10 x 12 detail at scale 1.  [correlate2d] raises on the
    mixed sizes, the fallback returns [[0]], and [0 > -1] records the
    candidate: the box is [(0, 0, 12, 10)] in an image 10 pixels wide. *)
Lemma find_zoom_region_box_counterexample :
  exists r,
    find_zoom_region scipy_env (band_left 11 10 3) (band_right 10 12 7)
      (1%float, 1%float) 1 = Ok r /\
    box r = (0, 0, 12, 10)%Z /\
    ~ box_inside (band_left 11 10 3) (box r).
Proof.
  eexists. split; [vm_compute; reflexivity|]. split; [reflexivity|].
  simpl. lia.
Qed.

(** C2, as the code has it.  The box of a returned match has
    [0 <= x1], [0 <= y1] and sides of at least 10 pixels; it ends inside
    the low-mag image whenever the winning template, whose shape is
    [(y2 - y1, x2 - x1)], is no larger than the low-mag image in either
    dimension. *)
Theorem find_zoom_region_box_bounds (env : Env) (low_mag_img high_mag_img : ndarray)
  (scale_range : float * float) (steps : Z) (r : match_result) :
  sobel_keeps_shape env ->
  correlate2d_valid_shape env ->
  find_zoom_region env low_mag_img high_mag_img scale_range steps = Ok r ->
  let '(x1, y1, x2, y2) := box r in
  (0 <= x1 /\ x1 + 10 <= x2 /\ 0 <= y1 /\ y1 + 10 <= y2)%Z /\
  ((x2 - x1 <= Z.of_nat (snd (shape low_mag_img)))%Z ->
   (y2 - y1 <= Z.of_nat (fst (shape low_mag_img)))%Z ->
   box_inside low_mag_img (box r)).
Proof.
  intros Hs Hc H.
  destruct (find_zoom_region_won _ _ _ _ _ _ H)
    as (lg & hg & scales & k & s & d & corr & idx & row & col & Hl & Hh & _ & W).
  destruct W as [_ Hcand Hth Htw _ Hpos _ _ Hbox _ _ _ _ _].
  rewrite Hbox. split; [lia|]. intros Hw1 Hh1. unfold box_inside.
  destruct (sobel_magnitude_shape env low_mag_img Hs) as (g & Hg & Hshape).
  rewrite Hl in Hg. injection Hg as <-.
  destruct (candidate_not_skipped _ _ _ _ _ _ _ Hcand) as (_ & _ & _ & Hfft & _).
  assert (Hfit_h : fst (shape d) <= fst (shape lg)) by (rewrite Hshape; lia).
  assert (Hfit_w : snd (shape d) <= snd (shape lg)) by (rewrite Hshape; lia).
  pose proof (fft_correlate_shape env lg d corr Hc Hfft Hfit_h Hfit_w) as Hcs.
  destruct (unravel_index_bounds _ _ _ _ Hpos) as (Hr & Hcol & _).
  rewrite Hcs in Hr, Hcol. simpl in Hr, Hcol. rewrite Hshape in Hr, Hcol.
  lia.
Qed.

Lemma find_zoom_region_box_bounds_witness :
  let '(x1, y1, x2, y2) := box sample_match in
  (0 <= x1 /\ x1 + 10 <= x2 /\ 0 <= y1 /\ y1 + 10 <= y2)%Z /\
  ((x2 - x1 <= Z.of_nat (snd (shape overview)))%Z ->
   (y2 - y1 <= Z.of_nat (fst (shape overview)))%Z ->
   box_inside overview (box sample_match)).
Proof.
  apply (find_zoom_region_box_bounds scipy_env overview detail
           (1%float, 3%float) 3 sample_match).
  - exact scipy_env_sobel.
  - exact scipy_env_correlate2d.
  - vm_compute. reflexivity.
Defined.

(* ================================================================== *)
(** ** Templates larger than the search image *)


(* ================================================================== *)
(** ** The scales and the global maximum *)

Lemma nth_map_seq (f : nat -> float) (n i : nat) :
  i < n -> nth i (map f (seq 0 n)) 0%float = f i.
Proof.
  intros H. rewrite (nth_indep _ 0%float (f 0)) by now rewrite length_map, length_seq.
  rewrite map_nth, seq_nth by exact H. reflexivity.
Qed.

Lemma linspace_spec (start stop : float) (num : Z) (l : list float) :
  linspace start stop num = Ok l ->
  length l = Z.to_nat num /\
  (forall i, i < length l -> nth i l 0%float = linspace_value start stop num i) /\
  ((1 < num)%Z -> last l 0%float = stop).
Proof.
  unfold linspace. destruct (num <? 0)%Z eqn:Hneg; [discriminate|].
  apply Z.ltb_ge in Hneg. cbv zeta.
  set (n := Z.to_nat num).
  set (g := fun i : nat =>
              if (0 <? num - 1)%Z
              then if PrimFloat.eqb ((stop - start) / float_of_Z (num - 1)) 0
                   then (float_of_nat i / float_of_Z (num - 1) * (stop - start)
                         + start)%float
                   else (float_of_nat i * ((stop - start) / float_of_Z (num - 1))
                         + start)%float
              else (float_of_nat i * (stop - start) + start)%float).
  match goal with
  | |- Ok (if _ then removelast ?y ++ _ else _) = _ -> _ =>
      assert (Hy : y = map g (seq 0 n))
  end.
  { unfold g. destruct (0 <? num - 1)%Z;
      [destruct (PrimFloat.eqb ((stop - start) / float_of_Z (num - 1)) 0)|];
      rewrite !map_map; reflexivity. }
  rewrite Hy. clear Hy.
  destruct (1 <? num)%Z eqn:H1; intros [= <-].
  - apply Z.ltb_lt in H1.
    assert (Hn : n = S (n - 1)) by (unfold n; lia).
    assert (Hlen : length (removelast (map g (seq 0 n))) = n - 1).
    { rewrite removelast_firstn_len, length_firstn, length_map, length_seq. lia. }
    split; [rewrite length_app, Hlen; simpl; lia|]. split.
    + intros i Hi. rewrite length_app, Hlen in Hi. simpl in Hi.
      unfold linspace_value.
      destruct (Nat.eq_dec i (n - 1)) as [->|Hne].
      * rewrite app_nth2 by lia. rewrite Hlen, Nat.sub_diag. simpl.
        replace (Z.of_nat (n - 1) + 1 =? num)%Z with true
          by (symmetry; apply Z.eqb_eq; unfold n; lia).
        replace (1 <? num)%Z with true by (symmetry; apply Z.ltb_lt; lia).
        reflexivity.
      * rewrite app_nth1 by lia.
        rewrite removelast_firstn_len, nth_firstn, length_map, length_seq.
        replace (i <? Nat.pred n) with true by (symmetry; apply Nat.ltb_lt; lia).
        rewrite nth_map_seq by lia.
        replace (Z.of_nat i + 1 =? num)%Z with false
          by (symmetry; apply Z.eqb_neq; unfold n in *; lia).
        reflexivity.
    + intros _. apply last_last.
  - apply Z.ltb_ge in H1.
    split; [now rewrite length_map, length_seq|]. split; [|lia].
    intros i Hi. rewrite length_map, length_seq in Hi.
    rewrite nth_map_seq by exact Hi. unfold linspace_value.
    replace (1 <? num)%Z with false by (symmetry; apply Z.ltb_ge; lia).
    now rewrite andb_false_r.
Qed.

(** The first sample [0 * step + start] is [start] itself for a finite
    step, unless [start] is the negative zero. *)
Lemma zero_mul_add (step start : float) :
  is_finite step = true -> Prim2SF start <> S754_zero true ->
  (0 * step + start)%float = start.
Proof.
  intros Hf Hs. apply Prim2SF_inj. rewrite add_spec, mul_spec.
  unfold is_finite, is_nan, is_infinity in Hf.
  rewrite !eqb_spec, abs_spec in Hf.
  change (Prim2SF 0) with (S754_zero false).
  change (Prim2SF infinity) with (S754_infinity false) in Hf.
  destruct (Prim2SF step) as [s|s| |s m e];
    try (destruct s; discriminate Hf); try discriminate Hf;
    destruct (Prim2SF start) as [s'|s'| |s' m' e']; try reflexivity;
    destruct s, s'; try reflexivity; congruence.
Qed.

Lemma linspace_first (start stop : float) (num : Z) (l : list float) :
  linspace start stop num = Ok l -> (0 < num)%Z ->
  linspace_regular start stop num -> hd 0%float l = start.
Proof.
  intros H Hpos (Hfin & Hnz & Hstart).
  destruct (linspace_spec _ _ _ _ H) as (Hlen & Hnth & _).
  destruct l as [|x l]; [simpl in Hlen; lia|]. simpl.
  specialize (Hnth 0 ltac:(simpl; lia)). simpl in Hnth. rewrite Hnth.
  unfold linspace_value.
  replace ((Z.of_nat 0 + 1 =? num)%Z && (1 <? num)%Z) with false
    by (symmetry; destruct (Z.eqb_spec (Z.of_nat 0 + 1) num) as [<-|]; reflexivity).
  change (float_of_nat 0) with 0%float.
  destruct (0 <? num - 1)%Z.
  - rewrite (Hnz eq_refl). now apply zero_mul_add.
  - now apply zero_mul_add.
Qed.

(** C6.  The scales are the [steps] samples of [np.linspace(min, max, steps)]:
    [min + i * step], beginning with [min] (for a finite step) and ending
    in [max] itself when there are at least two.
    A returned match reports the scale and the peak of a candidate [k] such
    that no candidate's peak, and no entry of a nan-free candidate surface,
    exceeds the reported correlation, and no candidate before [k] attains
    it: ties go to the scale met first. *)
Theorem find_zoom_region_global_argmax (env : Env)
  (low_mag_img high_mag_img : ndarray) (smin smax : float) (steps : Z)
  (r : match_result) :
  find_zoom_region env low_mag_img high_mag_img (smin, smax) steps = Ok r ->
  exists low_grad high_grad scales k d corr,
    _sobel_magnitude env low_mag_img = Ok low_grad /\
    _sobel_magnitude env high_mag_img = Ok high_grad /\
    linspace smin smax steps = Ok scales /\
    length scales = Z.to_nat steps /\
    (forall i, i < length scales ->
       nth i scales 0%float = linspace_value smin smax steps i) /\
    ((0 < steps)%Z -> linspace_regular smin smax steps ->
     hd 0%float scales = smin) /\
    ((1 < steps)%Z -> last scales 0%float = smax) /\
    nth_error scales k = Some (scale r) /\
    candidate env low_grad high_grad (scale r)
      = Ok (Some (d, corr, correlation r)) /\
    In (correlation r) (flatten corr) /\
    (forall j s' d' corr' p',
       nth_error scales j = Some s' ->
       candidate env low_grad high_grad s' = Ok (Some (d', corr', p')) ->
       (correlation r <? p')%float = false /\
       (Forall (fun v => is_nan v = false) (flatten corr') ->
        forall v, In v (flatten corr') -> (correlation r <? v)%float = false) /\
       (j < k -> p' <> correlation r)).
Proof.
  intros H.
  destruct (find_zoom_region_won _ _ _ _ _ _ H)
    as (lg & hg & scales & k & s & d & corr & idx & row & col & Hl & Hh & Hs & W).
  simpl in Hs.
  destruct W as [Hk Hcand _ _ _ _ _ Hscale _ _ _ _ Hdominates Hfirst]. subst s.
  destruct (linspace_spec _ _ _ _ Hs) as (Hlen & Hnth & Hlast).
  exists lg, hg, scales, k, d, corr.
  do 5 (split; [assumption|]).
  split; [intros Hpos Hreg; exact (linspace_first _ _ _ _ Hs Hpos Hreg)|].
  do 3 (split; [assumption|]).
  destruct (candidate_not_skipped _ _ _ _ _ _ _ Hcand)
    as (_ & _ & _ & _ & Hmax).
  split; [exact (max_In _ _ Hmax)|].
  intros j s' d' corr' p' Hj Hc. split; [|split].
  - exact (Hdominates j s' d' corr' p' Hj Hc).
  - intros Hnan v Hv.
    destruct (candidate_not_skipped _ _ _ _ _ _ _ Hc) as (_ & _ & _ & _ & Hmax').
    pose proof (max_upper _ _ Hmax' Hnan v Hv) as Hup.
    pose proof (Hdominates j s' d' corr' p' Hj Hc) as Hdom.
    destruct (correlation r <? v)%float eqn:E; [|reflexivity].
    rewrite Forall_forall in Hnan.
    destruct (v <=? p')%float eqn:Hle.
    + now rewrite (ltb_leb_trans _ _ _ E Hle) in Hdom.
    + rewrite (leb_false_ltb_true p' v (Hnan _ (max_In _ _ Hmax')) (Hnan _ Hv) Hle)
        in Hup. discriminate.
  - intros Hlt. exact (Hfirst j s' d' corr' p' Hlt Hj Hc).
Qed.

Lemma find_zoom_region_global_argmax_witness :
  exists low_grad high_grad scales k d corr,
    _sobel_magnitude scipy_env overview = Ok low_grad /\
    _sobel_magnitude scipy_env detail = Ok high_grad /\
    linspace 1 3 3 = Ok scales /\
    length scales = Z.to_nat 3 /\
    (forall i, i < length scales ->
       nth i scales 0%float = linspace_value 1 3 3 i) /\
    ((0 < 3)%Z -> linspace_regular 1 3 3 -> hd 0%float scales = 1%float) /\
    ((1 < 3)%Z -> last scales 0%float = 3%float) /\
    nth_error scales k = Some (scale sample_match) /\
    candidate scipy_env low_grad high_grad (scale sample_match)
      = Ok (Some (d, corr, correlation sample_match)) /\
    In (correlation sample_match) (flatten corr) /\
    (forall j s' d' corr' p',
       nth_error scales j = Some s' ->
       candidate scipy_env low_grad high_grad s' = Ok (Some (d', corr', p')) ->
       (correlation sample_match <? p')%float = false /\
       (Forall (fun v => is_nan v = false) (flatten corr') ->
        forall v, In v (flatten corr') ->
        (correlation sample_match <? v)%float = false) /\
       (j < k -> p' <> correlation sample_match)).
Proof.
  apply (find_zoom_region_global_argmax scipy_env overview detail 1%float 3%float 3).
  vm_compute. reflexivity.
Defined.

Example linspace_regular_sample :
  linspace_regular 1 3 3 /\ linspace_regular 8 12 20.
Proof. repeat split; vm_compute; discriminate. Qed.

(** The scales of the sample search, and of the default search. *)
Example linspace_sample :
  linspace 1 3 3 = Ok [1%float; 2%float; 3%float] /\
  (exists l, linspace 8 12 20 = Ok l /\ length l = 20 /\
             hd 0%float l = 8%float /\ last l 0%float = 12%float).
Proof.
  split; [reflexivity|]. eexists. split; [vm_compute; reflexivity|].
  repeat split.
Qed.

(* ================================================================== *)
(** ** Determinism *)

(** Each helper depends on its backend only through the calls it makes. *)
Lemma sobel_magnitude_reproduced (env1 env2 : Env) (img : ndarray) :
  match scipy_ndimage_sobel env1, scipy_ndimage_sobel env2 with
  | Some sobel1, Some sobel2 => forall axis, sobel1 img axis = sobel2 img axis
  | None, None => True
  | _, _ => False
  end ->
  _sobel_magnitude env1 img = _sobel_magnitude env2 img.
Proof.
  unfold _sobel_magnitude.
  destruct (scipy_ndimage_sobel env1) as [s1|], (scipy_ndimage_sobel env2) as [s2|];
    intros H; try contradiction; [|reflexivity].
  now rewrite !H.
Qed.

Lemma downsample_reproduced (env1 env2 : Env) (img : ndarray) (factor : number) :
  match skimage_transform_resize env1, skimage_transform_resize env2 with
  | Some resize1, Some resize2 =>
      forall shp, resize1 img shp (Some true) = resize2 img shp (Some true)
  | None, None => True
  | _, _ => False
  end ->
  _downsample env1 img factor = _downsample env2 img factor.
Proof.
  unfold _downsample.
  destruct (skimage_transform_resize env1) as [r1|],
           (skimage_transform_resize env2) as [r2|];
    intros H; try contradiction; [|reflexivity].
  destruct (int_truediv (fst (shape img)) factor) as [qh|]; [|reflexivity]. simpl.
  destruct (Py.int qh) as [nh|]; [|reflexivity]. simpl.
  destruct (int_truediv (snd (shape img)) factor) as [qw|]; [|reflexivity]. simpl.
  destruct (Py.int qw) as [nw|]; [|reflexivity]. simpl.
  destruct ((nh <? 1)%Z || (nw <? 1)%Z); [reflexivity|]. now rewrite H.
Qed.

Lemma fft_correlate_reproduced (env1 env2 : Env) (image template : ndarray) :
  match scipy_signal_correlate2d env1, scipy_signal_correlate2d env2 with
  | Some correlate2d1, Some correlate2d2 =>
      correlate2d1 (normalize image) (normalize template)
      = correlate2d2 (normalize image) (normalize template)
  | None, None => True
  | _, _ => False
  end ->
  _fft_correlate env1 image template = _fft_correlate env2 image template.
Proof.
  unfold _fft_correlate.
  destruct (scipy_signal_correlate2d env1) as [c1|],
           (scipy_signal_correlate2d env2) as [c2|];
    intros H; try contradiction; [|reflexivity].
  now rewrite H.
Qed.

Section Reproduced.

Variables env1 env2 : Env.
Variables low_grad high_grad : ndarray.
Hypothesis Hdown : forall factor,
  _downsample env1 high_grad factor = _downsample env2 high_grad factor.
Hypothesis Hcorr : forall template,
  _fft_correlate env1 low_grad template = _fft_correlate env2 low_grad template.

Lemma scan_scale_reproduced (best : best_result) (s : float) :
  scan_scale env1 low_grad high_grad best s = scan_scale env2 low_grad high_grad best s.
Proof.
  unfold scan_scale. rewrite Hdown.
  destruct (_downsample env2 high_grad (NpFloat64 s)) as [d|e]; [|reflexivity].
  simpl. now rewrite Hcorr.
Qed.

Lemma scan_reproduced (scales : list float) (best : best_result) :
  scan env1 low_grad high_grad best scales = scan env2 low_grad high_grad best scales.
Proof.
  revert best. induction scales as [|s rest IH]; intros best; [reflexivity|].
  simpl. rewrite scan_scale_reproduced.
  destruct (scan_scale env2 low_grad high_grad best s) as [b|e]; [|reflexivity].
  simpl. apply IH.
Qed.

End Reproduced.

Lemma reproduces_refl (env : Env) (low_mag_img high_mag_img : ndarray) :
  reproduces env env low_mag_img high_mag_img.
Proof.
  unfold reproduces.
  destruct (scipy_ndimage_sobel env), (skimage_transform_resize env),
           (scipy_signal_correlate2d env); repeat split; trivial.
Qed.

(** C9.  Two calls of [find_zoom_region] on the same pair of images with
    the same [scale_range] and [steps] end alike, and when they return they
    return the same box, scale and correlation -- provided the libraries
    answer the second call as they answered the first on the calls the
    locator makes ([reproduces]); the backends may differ anywhere else.  A
    single environment reproduces itself ([reproduces_refl]). *)
Theorem find_zoom_region_reproducible (env1 env2 : Env)
  (low_mag_img high_mag_img : ndarray) (scale_range : float * float) (steps : Z) :
  reproduces env1 env2 low_mag_img high_mag_img ->
  find_zoom_region env1 low_mag_img high_mag_img scale_range steps
  = find_zoom_region env2 low_mag_img high_mag_img scale_range steps /\
  (forall r1 r2,
     find_zoom_region env1 low_mag_img high_mag_img scale_range steps = Ok r1 ->
     find_zoom_region env2 low_mag_img high_mag_img scale_range steps = Ok r2 ->
     box r1 = box r2 /\ scale r1 = scale r2 /\ correlation r1 = correlation r2).
Proof.
  intros (Hsobel & Hresize & Hc2d).
  assert (Hrun : find_zoom_region env1 low_mag_img high_mag_img scale_range steps
                 = find_zoom_region env2 low_mag_img high_mag_img scale_range steps).
  { unfold find_zoom_region.
    assert (Hl : _sobel_magnitude env1 low_mag_img = _sobel_magnitude env2 low_mag_img).
    { apply sobel_magnitude_reproduced.
      destruct (scipy_ndimage_sobel env1), (scipy_ndimage_sobel env2); trivial.
      intros axis. apply Hsobel. }
    assert (Hh : _sobel_magnitude env1 high_mag_img = _sobel_magnitude env2 high_mag_img).
    { apply sobel_magnitude_reproduced.
      destruct (scipy_ndimage_sobel env1), (scipy_ndimage_sobel env2); trivial.
      intros axis. apply Hsobel. }
    rewrite <- Hl, <- Hh.
    destruct (_sobel_magnitude env1 low_mag_img) as [lg|e] eqn:El; [|reflexivity].
    simpl.
    destruct (_sobel_magnitude env1 high_mag_img) as [hg|e] eqn:Eh; [|reflexivity].
    simpl.
    destruct (linspace (fst scale_range) (snd scale_range) steps) as [scales|e];
      [|reflexivity].
    simpl. rewrite (scan_reproduced env1 env2 lg hg); [reflexivity| |].
    - intros factor. apply downsample_reproduced.
      destruct (skimage_transform_resize env1), (skimage_transform_resize env2);
        trivial.
      intros shp. now apply Hresize.
    - intros template. apply fft_correlate_reproduced.
      destruct (scipy_signal_correlate2d env1), (scipy_signal_correlate2d env2);
        trivial.
      now apply Hc2d. }
  split; [exact Hrun|].
  intros r1 r2 H1 H2. rewrite Hrun, H2 in H1. injection H1 as <-. repeat split.
Qed.

(** The sample pair: a [correlate2d] that differs from the reference one on
    every image that has not 24 rows reproduces it on the overview. *)
Lemma overview_scipy_env_reproduces :
  reproduces scipy_env overview_scipy_env overview detail.
Proof.
  repeat split.
  cbn [scipy_signal_correlate2d scipy_env overview_scipy_env]. intros lg t Hlg.
  destruct (sobel_magnitude_shape scipy_env overview scipy_env_sobel)
    as (g & Hg & Hshape).
  rewrite Hlg in Hg. injection Hg as <-.
  change (shape (normalize lg)) with (shape lg). now rewrite Hshape.
Qed.

Lemma find_zoom_region_reproducible_witness :
  find_zoom_region scipy_env overview detail (1%float, 3%float) 3
  = find_zoom_region overview_scipy_env overview detail (1%float, 3%float) 3 /\
  (forall r1 r2,
     find_zoom_region scipy_env overview detail (1%float, 3%float) 3 = Ok r1 ->
     find_zoom_region overview_scipy_env overview detail (1%float, 3%float) 3 = Ok r2 ->
     box r1 = box r2 /\ scale r1 = scale r2 /\ correlation r1 = correlation r2).
Proof.
  apply (find_zoom_region_reproducible scipy_env overview_scipy_env overview detail
           (1%float, 3%float) 3).
  exact overview_scipy_env_reproduces.
Defined.

(** The proviso is needed: a [correlate2d] that raises where the reference
    one answers does not reproduce it, and the two runs on the sample pair
    return the same box and scale with different correlations (the
    fallback's is normalized by the window norms). *)
Example find_zoom_region_backends_matter :
  (exists low_grad template,
     _sobel_magnitude scipy_env overview = Ok low_grad /\
     correlate2d_valid (normalize low_grad) (normalize template) <> None) /\
  ~ reproduces scipy_env raising_env overview detail /\
  exists r1 r2,
    find_zoom_region scipy_env overview detail (1%float, 3%float) 3 = Ok r1 /\
    find_zoom_region raising_env overview detail (1%float, 3%float) 3 = Ok r2 /\
    box r1 = box r2 /\ scale r1 = scale r2 /\
    correlation r1 <> correlation r2.
Proof.
  assert (H : exists low_grad template,
     _sobel_magnitude scipy_env overview = Ok low_grad /\
     correlate2d_valid (normalize low_grad) (normalize template) <> None).
  { eexists. exists detail. split; [vm_compute; reflexivity|].
    unfold correlate2d_valid. rewrite !shape_normalize. simpl. discriminate. }
  split; [exact H|]. split.
  - intros (_ & _ & Hc). destruct H as (lg & t & Hlg & Hne). apply Hne.
    simpl in Hc. now apply Hc.
  - do 2 eexists. split; [vm_compute; reflexivity|].
    split; [vm_compute; reflexivity|]. simpl.
    repeat split. intros Heq.
    apply (f_equal (fun x => PrimFloat.ltb x 1)) in Heq. vm_compute in Heq.
    discriminate.
Qed.

(** The two backends of the sample pair do differ: on a 12 x 14 image the
    reference [correlate2d] answers and the other one raises. *)
Example other_backends_differ :
  correlate2d_valid (band_left 12 14 3) (band_left 10 10 3) <> None /\
  (forall correlate2d, scipy_signal_correlate2d overview_scipy_env = Some correlate2d ->
     correlate2d (band_left 12 14 3) (band_left 10 10 3) = None).
Proof.
  split; [discriminate|]. intros c [= <-]. reflexivity.
Qed.

(* ================================================================== *)
(** ** The match validator *)

Lemma size_slice2 (a : ndarray) (y1 y2 x1 x2 : Z) :
  size (slice2 a y1 y2 x1 x2)
  = slice_len (fst (shape a)) y1 y2 * slice_len (snd (shape a)) x1 x2.
Proof. reflexivity. Qed.

Lemma validate_zoom_match_empty (env : Env) (low_mag_img high_mag_img : ndarray)
  (x1 y1 x2 y2 : Z) (threshold : float) :
  size (slice2 low_mag_img y1 y2 x1 x2) = 0 ->
  validate_zoom_match env low_mag_img high_mag_img (x1, y1, x2, y2) threshold
  = Ok empty_region.
Proof.
  intros H. unfold validate_zoom_match. rewrite H. reflexivity.
Qed.

(** C4.  A box whose crop of the low-mag image is empty -- in particular a
    box of non-negative coordinates with [x1 >= x2] or [y1 >= y2], or
    starting beyond the image -- is answered without an exception by
    [valid = False], [correlation = 0] and the empty-region message. *)
Theorem validate_zoom_match_empty_region (env : Env)
  (low_mag_img high_mag_img : ndarray) (x1 y1 x2 y2 : Z) (threshold : float) :
  size (slice2 low_mag_img y1 y2 x1 x2) = 0 \/
  ((0 <= x1 /\ 0 <= y1 /\ 0 <= x2 /\ 0 <= y2)%Z /\
   (x2 <= x1 \/ y2 <= y1 \/
    Z.of_nat (snd (shape low_mag_img)) <= x1 \/
    Z.of_nat (fst (shape low_mag_img)) <= y1)%Z) ->
  validate_zoom_match env low_mag_img high_mag_img (x1, y1, x2, y2) threshold
  = Ok {| valid := false; v_correlation := 0%float; v_message := EmptyRegion |}.
Proof.
  intros H. apply validate_zoom_match_empty.
  destruct H as [H|[(Hx1 & Hy1 & Hx2 & Hy2) H]]; [exact H|].
  rewrite size_slice2. unfold slice_len.
  rewrite !slice_index_nonneg by assumption. apply Nat.eq_mul_0. lia.
Qed.

Lemma validate_zoom_match_empty_region_witness :
  validate_zoom_match scipy_env overview detail (0, 0, 0, 0)%Z threshold_default
  = Ok {| valid := false; v_correlation := 0%float; v_message := EmptyRegion |}.
Proof.
  apply validate_zoom_match_empty_region. right. simpl. lia.
Defined.

(** Past the empty-region test the message is never the empty-region one. *)
Lemma validate_zoom_match_nonempty (env : Env) (low_mag_img high_mag_img : ndarray)
  (x1 y1 x2 y2 : Z) (threshold : float) (v : validation) :
  size (slice2 low_mag_img y1 y2 x1 x2) <> 0 ->
  validate_zoom_match env low_mag_img high_mag_img (x1, y1, x2, y2) threshold = Ok v ->
  v_message v <> EmptyRegion.
Proof.
  intros Hne. unfold validate_zoom_match.
  apply Nat.eqb_neq in Hne. rewrite Hne.
  match goal with
  | |- Py.bind ?e _ = _ -> _ => destruct e as [hr|e']; simpl; [|discriminate]
  end.
  match goal with
  | |- Py.bind ?e _ = _ -> _ => destruct e as [prod|e']; simpl; [|discriminate]
  end.
  intros [= <-]. simpl.
  destruct (threshold <? mean prod)%float; discriminate.
Qed.

(** With scikit-image the validator does what C5 says: the high-mag image
    is resized to the crop's shape, both are normalized, the correlation is
    the mean of their product and the verdict compares it with the
    threshold. *)
Lemma validate_zoom_match_resized (env : Env) (low_mag_img high_mag_img : ndarray)
  (x1 y1 x2 y2 : Z) (threshold : float)
  (resize : ndarray -> nat * nat -> option bool -> ndarray) :
  skimage_transform_resize env = Some resize ->
  resize_gives_shape env ->
  size (slice2 low_mag_img y1 y2 x1 x2) <> 0 ->
  let region := slice2 low_mag_img y1 y2 x1 x2 in
  let high_resized := resize high_mag_img (shape region) None in
  let region_norm :=
    div_scalar (sub_scalar region (mean region)) (std region + eps)%float in
  let high_norm :=
    div_scalar (sub_scalar high_resized (mean high_resized))
               (std high_resized + eps)%float in
  shape high_resized = shape region /\
  exists prod,
    binop PrimFloat.mul region_norm high_norm = Ok prod /\
    shape prod = shape region /\
    validate_zoom_match env low_mag_img high_mag_img (x1, y1, x2, y2) threshold
    = Ok {| valid := (threshold <? mean prod)%float;
            v_correlation := mean prod;
            v_message := if (threshold <? mean prod)%float then MatchValidated
                         else BelowThreshold (mean prod) threshold |}.
Proof.
  intros Hr Hshape Hne region high_resized region_norm high_norm.
  assert (Hs : shape high_resized = shape region) by apply (Hshape resize Hr).
  split; [exact Hs|].
  destruct (binop_same_shape PrimFloat.mul region_norm high_norm)
    as (prod & Hp & Hps); [simpl; now rewrite Hs|].
  exists prod. split; [exact Hp|]. split; [exact Hps|].
  unfold validate_zoom_match. apply Nat.eqb_neq in Hne.
  rewrite Hne, Hr. cbv beta iota zeta delta [Py.bind].
  unfold region_norm, high_norm, high_resized, region in Hp.
  rewrite Hp. reflexivity.
Qed.

(** C5 at its failing input: without scikit-image the fallback resamples by
    the ratio of the heights alone.  For a 10 x 5 crop and a 20 x 20
    high-mag image the factor is 2, the resampled image is 10 x 10, and the
    product of the two normalized arrays raises instead of giving a
    correlation. *)
Theorem validate_zoom_match_fallback_mismatch :
  let low := band_left 10 10 3 in
  let high := band_left 20 20 6 in
  shape (slice2 low 0 10 0 5) = (10, 5) /\
  (exists high_resized,
     _downsample scipy_env high (PyFloat (float_of_nat 20 / float_of_nat 10)%float)
       = Ok high_resized /\
     shape high_resized = (10, 10)) /\
  validate_zoom_match scipy_env low high (0, 0, 5, 10)%Z threshold_default
  = Raise (ValueError BroadcastMismatch).
Proof.
  split; [reflexivity|]. split.
  - eexists. split; [vm_compute; reflexivity|]. reflexivity.
  - vm_compute. reflexivity.
Qed.




(** The crop of the sample at the negative row is the crop of its match,
    and validates. *)
Example validate_negative_row_sample :
  slice2 overview (-21) 15 6 18 = slice2 overview 3 15 6 18 /\
  exists v,
    validate_zoom_match scipy_env overview detail (6, -21, 18, 15)%Z
      threshold_default = Ok v /\
    valid v = true /\ v_message v = MatchValidated.
Proof.
  split; [reflexivity|]. eexists. split; [vm_compute; reflexivity|].
  split; reflexivity.
Qed.

(* ================================================================== *)
(** * Further properties of template_matching.py *)

(** ** The locator *)

(** Without [scipy.signal] the locator never returns a match: correlating
    any candidate raises [ImportError], so a call ends in an exception
    whatever the images are. *)
Theorem find_zoom_region_needs_scipy_signal (env : Env)
  (low_mag_img high_mag_img : ndarray) (scale_range : float * float) (steps : Z) :
  scipy_signal_correlate2d env = None ->
  (forall image template, _fft_correlate env image template = Raise ImportError) /\
  (forall r,
     find_zoom_region env low_mag_img high_mag_img scale_range steps <> Ok r).
Proof.
  intros Hnone.
  assert (Hfft : forall image template,
             _fft_correlate env image template = Raise ImportError).
  { intros image template. unfold _fft_correlate. now rewrite Hnone. }
  split; [exact Hfft|]. intros r H.
  destruct (find_zoom_region_won _ _ _ _ _ _ H)
    as (lg & hg & scales & k & s & d & corr & idx & row & col & _ & _ & _ & W).
  destruct W as [_ Hcand _ _ _ _ _ _ _ _ _ _ _ _].
  destruct (candidate_not_skipped _ _ _ _ _ _ _ Hcand) as (_ & _ & _ & Hc & _).
  rewrite Hfft in Hc. discriminate.
Qed.

Lemma find_zoom_region_needs_scipy_signal_witness :
  (forall image template,
     _fft_correlate bare_env image template = Raise ImportError) /\
  (forall r,
     find_zoom_region bare_env overview detail (1%float, 3%float) 3 <> Ok r).
Proof.
  apply (find_zoom_region_needs_scipy_signal bare_env overview detail
           (1%float, 3%float) 3).
  reflexivity.
Defined.

(** The sample search without scipy: the first candidate is correlated and
    the import fails. *)
Example find_zoom_region_bare_sample :
  find_zoom_region bare_env overview detail (1%float, 3%float) 3
  = Raise ImportError.
Proof. vm_compute. reflexivity. Qed.

(** With no scale to try ([steps = 0]) the locator fails with
    [NoMatchFound]; with a negative [steps] it fails with the [ValueError]
    of [np.linspace]. *)
Theorem find_zoom_region_steps_edge (env : Env)
  (low_mag_img high_mag_img : ndarray) (scale_range : float * float) (steps : Z) :
  sobel_keeps_shape env ->
  (steps = 0%Z ->
   find_zoom_region env low_mag_img high_mag_img scale_range steps
   = Raise NoMatchFound) /\
  ((steps < 0)%Z ->
   find_zoom_region env low_mag_img high_mag_img scale_range steps
   = Raise (ValueError NegativeSamples)).
Proof.
  intros Hs.
  destruct (sobel_magnitude_shape env low_mag_img Hs) as (lg & Hl & _).
  destruct (sobel_magnitude_shape env high_mag_img Hs) as (hg & Hh & _).
  unfold find_zoom_region. rewrite Hl, Hh. simpl. split.
  - intros ->. reflexivity.
  - intros Hneg. unfold linspace.
    replace (steps <? 0)%Z with true by (symmetry; now apply Z.ltb_lt).
    reflexivity.
Qed.

Lemma find_zoom_region_steps_edge_witness :
  (0%Z = 0%Z ->
   find_zoom_region scipy_env overview detail (1%float, 3%float) 0
   = Raise NoMatchFound) /\
  ((0 < 0)%Z ->
   find_zoom_region scipy_env overview detail (1%float, 3%float) 0
   = Raise (ValueError NegativeSamples)).
Proof.
  apply (find_zoom_region_steps_edge scipy_env overview detail (1%float, 3%float) 0).
  exact scipy_env_sobel.
Defined.

Lemma ltb_true_not_nan (a b : float) :
  (a <? b)%float = true -> is_nan a = false /\ is_nan b = false.
Proof.
  unfold is_nan. rewrite ltb_spec, !eqb_spec. unfold SFltb, SFeqb.
  destruct (Prim2SF a) as [sa|sa| |sa ma ea] eqn:Ea;
    destruct (Prim2SF b) as [sb|sb| |sb mb eb] eqn:Eb;
    try discriminate; intros _;
    rewrite !SFcompare_refl by discriminate; split; reflexivity.
Qed.

(** A returned match reports a correlation strictly above the initial
    [-1], never a nan, and a scale that is one of the [np.linspace]
    samples. *)
Theorem find_zoom_region_reports_real_peak (env : Env)
  (low_mag_img high_mag_img : ndarray) (scale_range : float * float) (steps : Z)
  (r : match_result) :
  find_zoom_region env low_mag_img high_mag_img scale_range steps = Ok r ->
  (-1 <? correlation r)%float = true /\
  is_nan (correlation r) = false /\
  (0 < steps)%Z /\
  exists scales,
    linspace (fst scale_range) (snd scale_range) steps = Ok scales /\
    In (scale r) scales.
Proof.
  intros H.
  destruct (find_zoom_region_won _ _ _ _ _ _ H)
    as (lg & hg & scales & k & s & d & corr & idx & row & col & _ & _ & Hs & W).
  destruct W as [Hk _ _ _ _ _ _ Hscale _ _ _ Habove _ _].
  split; [exact Habove|]. split; [exact (proj2 (ltb_true_not_nan _ _ Habove))|].
  subst s. pose proof (nth_error_In _ _ Hk) as Hin. split.
  - destruct (linspace_spec _ _ _ _ Hs) as (Hlen & _).
    destruct scales; [contradiction|]. simpl in Hlen. lia.
  - now exists scales.
Qed.

Lemma find_zoom_region_reports_real_peak_witness :
  (-1 <? correlation sample_match)%float = true /\
  is_nan (correlation sample_match) = false /\
  (0 < 3)%Z /\
  exists scales,
    linspace 1 3 3 = Ok scales /\ In (scale sample_match) scales.
Proof.
  apply (find_zoom_region_reports_real_peak scipy_env overview detail
           (1%float, 3%float) 3).
  vm_compute. reflexivity.
Defined.

(** The scan composes: scanning [l1 ++ l2] is scanning [l1] and then [l2]
    from where [l1] ended, and the scales of [l2] keep the best result or
    replace it by one of strictly higher correlation. *)
Theorem scan_app (env : Env) (low_grad high_grad : ndarray)
  (best : best_result) (l1 l2 : list float) :
  scan env low_grad high_grad best (l1 ++ l2)
  = (b1 <- scan env low_grad high_grad best l1 ;;
     scan env low_grad high_grad b1 l2) /\
  (forall b1 b,
     scan env low_grad high_grad best l1 = Ok b1 ->
     scan env low_grad high_grad best (l1 ++ l2) = Ok b ->
     b = b1 \/ (best_correlation b1 <? best_correlation b)%float = true).
Proof.
  assert (Happ : forall l best0,
            scan env low_grad high_grad best0 (l ++ l2)
            = (b1 <- scan env low_grad high_grad best0 l ;;
               scan env low_grad high_grad b1 l2)).
  { induction l as [|s l IH]; intros best0; simpl; [reflexivity|].
    destruct (scan_scale env low_grad high_grad best0 s) as [b'|e]; simpl;
      [apply IH | reflexivity]. }
  split; [apply Happ|].
  intros b1 b H1 H. rewrite Happ, H1 in H. simpl in H.
  exact (scan_mono env low_grad high_grad l2 b1 b H).
Qed.

(** ** Well-formed arrays *)

Lemma tabulate_wf (h w : nat) (f : nat -> nat -> float) : wf (tabulate h w f).
Proof.
  split; simpl.
  - now rewrite length_map, length_seq.
  - apply Forall_forall. intros r Hr. apply in_map_iff in Hr as (i & <- & _).
    now rewrite length_map, length_seq.
Qed.

Lemma concat_length_uniform (w : nat) (l : list (list float)) :
  Forall (fun r => length r = w) l -> length (concat l) = length l * w.
Proof.
  induction 1 as [|r l Hr _ IH]; simpl; [reflexivity|].
  rewrite length_app, IH, Hr. reflexivity.
Qed.

Lemma flatten_length (a : ndarray) : wf a -> length (flatten a) = size a.
Proof.
  intros [Hh Hw]. unfold flatten, size.
  now rewrite (concat_length_uniform (snd (shape a))), Hh.
Qed.

Lemma argmax_from_lt (l : list float) (i : nat) (mp : float) (ind : nat) :
  ind < i -> argmax_from l i mp ind < i + length l.
Proof.
  revert i mp ind. induction l as [|x l IH]; simpl; intros i mp ind H; [lia|].
  destruct (is_nan mp); [lia|].
  destruct (x <=? mp)%float.
  - specialize (IH (S i) mp ind). lia.
  - specialize (IH (S i) x i). lia.
Qed.

(** On a well-formed array that is not empty, [np.max], [np.argmax] and
    [np.unravel_index] all succeed. *)
Lemma peak_defined (a : ndarray) :
  wf a -> size a <> 0 ->
  exists p idx row col,
    Np.max a = Ok p /\ argmax a = Ok idx /\
    unravel_index idx (shape a) = Ok (row, col) /\
    row < fst (shape a) /\ col < snd (shape a).
Proof.
  intros Hwf Hsize. pose proof (flatten_length a Hwf) as Hlen.
  unfold Np.max, argmax. destruct (flatten a) as [|x l] eqn:E;
    [simpl in Hlen; congruence|].
  pose proof (argmax_from_lt l 1 x 0 Nat.lt_0_1) as Hidx.
  simpl in Hlen.
  set (idx := argmax_from l 1 x 0) in *.
  destruct (unravel_index idx (shape a)) as [[row col]|e] eqn:Hu.
  - exists (fold_left maximum l x), idx, row, col.
    destruct (unravel_index_bounds _ _ _ _ Hu) as (Hr & Hc & _).
    now repeat split.
  - exfalso. unfold unravel_index in Hu. unfold size in Hlen.
    replace (idx <? fst (shape a) * snd (shape a)) with true in Hu
      by (symmetry; apply Nat.ltb_lt; lia).
    discriminate.
Qed.

(** ** The sliding-window correlation *)

Lemma naive_correlate_fits (image template : ndarray) :
  fst (shape template) <= fst (shape image) ->
  snd (shape template) <= snd (shape image) ->
  exists f,
    _naive_correlate image template
    = tabulate (fst (shape image) - fst (shape template) + 1)
               (snd (shape image) - snd (shape template) + 1) f /\
    forall i j,
      f i j =
      let window :=
        slice2 image (Z.of_nat i) (Z.of_nat (i + fst (shape template)))
                     (Z.of_nat j) (Z.of_nat (j + snd (shape template))) in
      if (0 <? norm window)%float && (0 <? norm template)%float
      then (dot (flatten window) (flatten template)
            / (norm window * norm template))%float
      else 0%float.
Proof.
  unfold _naive_correlate.
  destruct (shape template) as [th tw], (shape image) as [ih iw]; simpl.
  intros Hh Hw.
  destruct ((Z.of_nat ih - Z.of_nat th + 1 <=? 0)%Z
            || (Z.of_nat iw - Z.of_nat tw + 1 <=? 0)%Z) eqn:E.
  { apply orb_true_iff in E as [E|E]; apply Z.leb_le in E; lia. }
  eexists. split.
  - replace (Z.to_nat (Z.of_nat ih - Z.of_nat th + 1)) with (ih - th + 1) by lia.
    replace (Z.to_nat (Z.of_nat iw - Z.of_nat tw + 1)) with (iw - tw + 1) by lia.
    reflexivity.
  - intros i j. reflexivity.
Qed.

(** A template that fits always has a peak: on the fallback's surface
    [np.max], [np.argmax] and [np.unravel_index] succeed, and at the peak
    position the template lies inside the image. *)
Theorem naive_correlate_peak_defined (image template : ndarray) :
  fst (shape template) <= fst (shape image) ->
  snd (shape template) <= snd (shape image) ->
  wf (_naive_correlate image template) /\
  exists p idx row col,
    Np.max (_naive_correlate image template) = Ok p /\
    argmax (_naive_correlate image template) = Ok idx /\
    unravel_index idx (shape (_naive_correlate image template)) = Ok (row, col) /\
    row + fst (shape template) <= fst (shape image) /\
    col + snd (shape template) <= snd (shape image).
Proof.
  intros Hh Hw.
  destruct (naive_correlate_fits image template Hh Hw) as (f & Hf & _).
  assert (Hwf : wf (_naive_correlate image template))
    by (rewrite Hf; apply tabulate_wf).
  split; [exact Hwf|].
  assert (Hsize : size (_naive_correlate image template) <> 0)
    by (rewrite Hf; unfold size; simpl; apply Nat.neq_mul_0; lia).
  destruct (peak_defined _ Hwf Hsize)
    as (p & idx & row & col & Hm & Ha & Hu & Hr & Hc).
  exists p, idx, row, col. rewrite Hf in Hr, Hc. simpl in Hr, Hc.
  repeat split; try assumption; lia.
Qed.

Lemma naive_correlate_peak_defined_witness :
  wf (_naive_correlate (band_left 12 14 3) (band_left 10 10 3)) /\
  exists p idx row col,
    Np.max (_naive_correlate (band_left 12 14 3) (band_left 10 10 3)) = Ok p /\
    argmax (_naive_correlate (band_left 12 14 3) (band_left 10 10 3)) = Ok idx /\
    unravel_index idx
      (shape (_naive_correlate (band_left 12 14 3) (band_left 10 10 3)))
      = Ok (row, col) /\
    row + fst (shape (band_left 10 10 3)) <= fst (shape (band_left 12 14 3)) /\
    col + snd (shape (band_left 10 10 3)) <= snd (shape (band_left 12 14 3)).
Proof.
  apply (naive_correlate_peak_defined (band_left 12 14 3) (band_left 10 10 3));
    simpl; lia.
Defined.

Lemma map_seq_const {A} (v : A) (n : nat) (f : nat -> A) :
  (forall i, f i = v) -> map f (seq 0 n) = repeat v n.
Proof.
  intros Hf. generalize 0 as k. induction n as [|n IH]; intros k; simpl;
    [reflexivity|]. now rewrite Hf, IH.
Qed.

Lemma tabulate_constant (h w : nat) (f : nat -> nat -> float) (v : float) :
  (forall i j, f i j = v) -> tabulate h w f = constant h w v.
Proof.
  intros Hf. unfold constant, tabulate. f_equal.
  apply map_ext. intros i. apply map_ext. intros j. apply Hf.
Qed.

(** A template (or an image) without a positive norm -- all zeros, or
    holding a nan -- is never divided by: the fallback's surface is zero
    everywhere. *)
Theorem naive_correlate_flat_template (image template : ndarray) :
  fst (shape template) <= fst (shape image) ->
  snd (shape template) <= snd (shape image) ->
  (0 <? norm template)%float = false ->
  _naive_correlate image template
  = constant (fst (shape image) - fst (shape template) + 1)
             (snd (shape image) - snd (shape template) + 1) 0%float.
Proof.
  intros Hh Hw Hn.
  destruct (naive_correlate_fits image template Hh Hw) as (f & -> & Hf).
  apply tabulate_constant. intros i j. rewrite Hf. cbv zeta.
  now rewrite Hn, andb_false_r.
Qed.

Lemma naive_correlate_flat_template_witness :
  _naive_correlate (band_left 12 14 3) (constant 10 10 0%float)
  = constant (12 - 10 + 1) (14 - 10 + 1) 0%float.
Proof.
  apply (naive_correlate_flat_template (band_left 12 14 3) (constant 10 10 0%float)).
  - simpl; lia.
  - simpl; lia.
  - vm_compute. reflexivity.
Defined.

(** ** The gradient without scipy *)

Lemma map_arr_wf (f : float -> float) (a : ndarray) : wf a -> wf (map_arr f a).
Proof.
  intros [Hh Hw]. split; simpl.
  - now rewrite length_map.
  - apply Forall_forall. intros r Hr. apply in_map_iff in Hr as (r0 & <- & Hr0).
    rewrite length_map. rewrite Forall_forall in Hw. now apply Hw.
Qed.

Lemma stretch_same {X} (d : X) (n : nat) (l : list X) : stretch d n n l = l.
Proof. unfold stretch. now rewrite Nat.eqb_refl. Qed.

Lemma map_stretch_same (w : nat) (l : list (list float)) :
  map (stretch 0%float w w) l = l.
Proof.
  rewrite <- (map_id l) at 2. apply map_ext. intros r. apply stretch_same.
Qed.

Lemma binop_same_shape_rows (f : float -> float -> float) (a b : ndarray) :
  shape a = shape b ->
  binop f a b
  = Ok {| shape := shape a;
          rows := map (fun p => map (fun q => f (fst q) (snd q))
                                    (combine (fst p) (snd p)))
                      (combine (rows a) (rows b)) |}.
Proof.
  intros H. unfold binop. rewrite <- H, !broadcast_dim_same.
  rewrite !stretch_same, !map_stretch_same. now destruct (shape a).
Qed.

Lemma binop_wf (f : float -> float -> float) (a b : ndarray) :
  shape a = shape b -> wf a -> wf b ->
  exists c, binop f a b = Ok c /\ shape c = shape a /\ wf c.
Proof.
  intros H [Hah Haw] [Hbh Hbw]. rewrite (binop_same_shape_rows f a b H).
  eexists. split; [reflexivity|]. split; [reflexivity|]. split; simpl.
  - rewrite length_map, length_combine, Hah, Hbh, H. apply Nat.min_id.
  - apply Forall_forall. intros r Hr.
    apply in_map_iff in Hr as ([r1 r2] & <- & Hin). simpl.
    rewrite length_map, length_combine.
    rewrite Forall_forall in Haw, Hbw.
    rewrite (Haw r1 (in_combine_l _ _ _ _ Hin)), (Hbw r2 (in_combine_r _ _ _ _ Hin)).
    rewrite H. apply Nat.min_id.
Qed.

Lemma diffs_length (prev : float) (l : list float) :
  length (diffs prev l) = length l.
Proof.
  revert prev. induction l as [|x l IH]; intros prev; simpl; [reflexivity|].
  now rewrite IH.
Qed.

Lemma diff_axis1_wf (a : ndarray) : wf a -> wf (diff_axis1 a).
Proof.
  intros [Hh Hw]. split; simpl.
  - now rewrite length_map.
  - apply Forall_forall. intros r Hr. apply in_map_iff in Hr as (r0 & <- & Hr0).
    rewrite Forall_forall in Hw. rewrite <- (Hw r0 Hr0).
    destruct r0 as [|x r0]; [reflexivity|]. apply (diffs_length x (x :: r0)).
Qed.

Lemma diff_rows_wf (w : nat) (l : list (list float)) (prev : list float) :
  length prev = w -> Forall (fun r => length r = w) l ->
  length (diff_rows prev l) = length l /\
  Forall (fun r => length r = w) (diff_rows prev l).
Proof.
  revert prev. induction l as [|r l IH]; intros prev Hp Hl; simpl.
  - split; [reflexivity | constructor].
  - pose proof (Forall_inv Hl) as Hr. pose proof (Forall_inv_tail Hl) as Hl'.
    simpl in Hr.
    destruct (IH r Hr Hl') as [H1 H2]. split; [now rewrite H1|].
    constructor; [|exact H2].
    unfold sub_rows. rewrite length_map, length_combine, Hr, Hp. apply Nat.min_id.
Qed.

Lemma diff_axis0_wf (a : ndarray) : wf a -> wf (diff_axis0 a).
Proof.
  intros [Hh Hw]. unfold wf, diff_axis0. simpl.
  destruct (rows a) as [|r l] eqn:E; [now split|].
  pose proof (Forall_inv Hw) as Hr. simpl in Hr.
  destruct (diff_rows_wf (snd (shape a)) (r :: l) r Hr Hw) as [H1 H2].
  split; [now rewrite H1 | exact H2].
Qed.

(** Without [scipy.ndimage] the first-difference gradient never raises and
    gives a well-formed map of the image's shape. *)
Theorem sobel_fallback_keeps_shape (env : Env) (img : ndarray) :
  scipy_ndimage_sobel env = None ->
  wf img ->
  exists g, _sobel_magnitude env img = Ok g /\ shape g = shape img /\ wf g.
Proof.
  intros Hnone Hwf. unfold _sobel_magnitude. rewrite Hnone.
  destruct (binop_wf PrimFloat.add (square (diff_axis1 img))
              (square (diff_axis0 img))) as (c & -> & Hs & Hc).
  - reflexivity.
  - apply map_arr_wf, diff_axis1_wf, Hwf.
  - apply map_arr_wf, diff_axis0_wf, Hwf.
  - simpl. eexists. split; [reflexivity|]. split; [exact Hs|].
    apply map_arr_wf, Hc.
Qed.

Lemma sobel_fallback_keeps_shape_witness :
  exists g, _sobel_magnitude bare_env overview = Ok g /\
            shape g = shape overview /\ wf g.
Proof.
  apply (sobel_fallback_keeps_shape bare_env overview).
  - reflexivity.
  - apply tabulate_wf.
Defined.

Lemma sub_self (x : float) : finite x -> (x - x)%float = 0%float.
Proof.
  unfold finite. intros H. apply Prim2SF_inj. rewrite sub_spec.
  change (Prim2SF 0) with (S754_zero false).
  destruct (Prim2SF x) as [s|s| |s m e]; try contradiction.
  - now destruct s.
  - unfold SF64sub, SFsub. now rewrite Z.sub_diag.
Qed.

Lemma constant_rows (h w : nat) (v : float) :
  rows (constant h w v) = repeat (repeat v w) h.
Proof.
  simpl. apply map_seq_const. intros i. now apply map_seq_const.
Qed.

Lemma diffs_repeat (v : float) (n : nat) :
  (v - v)%float = 0%float -> diffs v (repeat v n) = repeat 0%float n.
Proof.
  intros Hv. induction n as [|n IH]; simpl; [reflexivity|]. now rewrite Hv, IH.
Qed.

Lemma sub_rows_repeat (v : float) (n : nat) :
  (v - v)%float = 0%float ->
  sub_rows (repeat v n) (repeat v n) = repeat 0%float n.
Proof.
  intros Hv. unfold sub_rows. induction n as [|n IH]; simpl; [reflexivity|].
  now rewrite Hv, IH.
Qed.

Lemma diff_rows_repeat (r z : list float) (n : nat) :
  sub_rows r r = z -> diff_rows r (repeat r n) = repeat z n.
Proof.
  intros Hz. induction n as [|n IH]; simpl; [reflexivity|]. now rewrite Hz, IH.
Qed.

Lemma combine_repeat {A B} (a : A) (b : B) (n : nat) :
  combine (repeat a n) (repeat b n) = repeat (a, b) n.
Proof. induction n as [|n IH]; simpl; [reflexivity|]. now rewrite IH. Qed.

(** Without [scipy.ndimage], a flat image of a finite value has the zero
    gradient map. *)
Theorem sobel_fallback_flat_image (env : Env) (h w : nat) (v : float) :
  scipy_ndimage_sobel env = None ->
  finite v ->
  _sobel_magnitude env (constant h w v) = Ok (constant h w 0%float).
Proof.
  intros Hnone Hv. pose proof (sub_self v Hv) as Hsub.
  unfold _sobel_magnitude. rewrite Hnone.
  assert (Hx : rows (square (diff_axis1 (constant h w v)))
               = repeat (repeat 0%float w) h).
  { cbn [square map_arr diff_axis1 rows]. rewrite constant_rows, !map_repeat.
    f_equal. destruct w as [|w]; [reflexivity|].
    change (diff_prepend_first (repeat v (S w))) with (diffs v (repeat v (S w))).
    rewrite (diffs_repeat v (S w) Hsub), map_repeat. reflexivity. }
  assert (Hy : rows (square (diff_axis0 (constant h w v)))
               = repeat (repeat 0%float w) h).
  { cbn [square map_arr diff_axis0 rows]. rewrite constant_rows.
    destruct h as [|h]; [reflexivity|].
    change (repeat (repeat v w) (S h)) with (repeat v w :: repeat (repeat v w) h)
      at 1.
    cbv iota beta.
    rewrite (diff_rows_repeat (repeat v w) _ (S h) (sub_rows_repeat v w Hsub)).
    rewrite !map_repeat. reflexivity. }
  rewrite binop_same_shape_rows by reflexivity.
  cbv beta iota delta [Py.bind]. rewrite Hx, Hy.
  change (shape (square (diff_axis1 (constant h w v)))) with (h, w).
  unfold Np.sqrt, map_arr. cbn [shape rows].
  rewrite combine_repeat, map_repeat. cbn [fst snd].
  rewrite combine_repeat, !map_repeat. cbn [fst snd].
  f_equal. unfold constant at 1. unfold tabulate. f_equal.
  exact (eq_sym (constant_rows h w 0%float)).
Qed.

Lemma sobel_fallback_flat_image_witness :
  _sobel_magnitude bare_env (constant 12 16 0.5%float)
  = Ok (constant 12 16 0%float).
Proof.
  apply (sobel_fallback_flat_image bare_env 12 16 0.5%float).
  - reflexivity.
  - vm_compute. exact I.
Defined.

(** ** Block averaging *)

Lemma downsample_block_average (env : Env) (img : ndarray) (factor : number)
  (qh qw : float) (nh nw : Z) :
  skimage_transform_resize env = None ->
  int_truediv (fst (shape img)) factor = Ok qh -> Py.int qh = Ok nh ->
  int_truediv (snd (shape img)) factor = Ok qw -> Py.int qw = Ok nw ->
  (1 <= nh)%Z -> (1 <= nw)%Z ->
  _downsample env img factor
  = Ok (tabulate (Z.to_nat nh) (Z.to_nat nw) (fun i j =>
          let block_h := fst (shape img) / Z.to_nat nh in
          let block_w := snd (shape img) / Z.to_nat nw in
          mean (slice2 img (Z.of_nat (i * block_h)) (Z.of_nat ((i + 1) * block_h))
                           (Z.of_nat (j * block_w)) (Z.of_nat ((j + 1) * block_w))))).
Proof.
  intros Hnone Hqh Hnh Hqw Hnw H1 H2. unfold _downsample.
  rewrite Hqh. simpl. rewrite Hnh. simpl. rewrite Hqw. simpl. rewrite Hnw. simpl.
  replace ((nh <? 1)%Z || (nw <? 1)%Z) with false
    by (symmetry; apply orb_false_iff; split; apply Z.ltb_ge; lia).
  rewrite Hnone. now destruct (shape img).
Qed.

(** Without scikit-image, a scale that leaves both new dimensions at 1 or
    more gives a well-formed template of exactly the shape
    [(int(h / s), int(w / s))]. *)
Theorem downsample_block_average_shape (env : Env) (img : ndarray) (s : float)
  (nh nw : Z) :
  skimage_transform_resize env = None ->
  Py.int (float_of_nat (fst (shape img)) / s)%float = Ok nh ->
  Py.int (float_of_nat (snd (shape img)) / s)%float = Ok nw ->
  (1 <= nh)%Z -> (1 <= nw)%Z ->
  exists d,
    _downsample env img (NpFloat64 s) = Ok d /\
    shape d = (Z.to_nat nh, Z.to_nat nw) /\ wf d.
Proof.
  intros Hnone Hnh Hnw H1 H2.
  rewrite (downsample_block_average env img (NpFloat64 s) _ _ nh nw Hnone
             eq_refl Hnh eq_refl Hnw H1 H2).
  eexists. split; [reflexivity|]. split; [reflexivity | apply tabulate_wf].
Qed.

Lemma downsample_block_average_shape_witness :
  exists d,
    _downsample scipy_env detail (NpFloat64 2) = Ok d /\
    shape d = (Z.to_nat 12, Z.to_nat 12) /\ wf d.
Proof.
  apply (downsample_block_average_shape scipy_env detail 2%float 12 12).
  - reflexivity.
  - vm_compute. reflexivity.
  - vm_compute. reflexivity.
  - lia.
  - lia.
Defined.

Lemma concat_nils (l : list (list float)) :
  Forall (fun r => r = []) l -> concat l = [].
Proof. induction 1 as [|r l -> _ IH]; simpl; [reflexivity | exact IH]. Qed.

Lemma slice_empty {X} (l : list X) (i : Z) : slice l i i = [].
Proof. unfold slice. now rewrite Nat.sub_diag. Qed.

Lemma mean_empty_block (img : ndarray) (y1 y2 x1 x2 : Z) :
  y1 = y2 \/ x1 = x2 -> mean (slice2 img y1 y2 x1 x2) = nan.
Proof.
  intros H. unfold mean.
  assert (Hf : flatten (slice2 img y1 y2 x1 x2) = []).
  { unfold flatten. simpl. destruct H as [<-|<-].
    - now rewrite slice_empty.
    - apply concat_nils, Forall_forall. intros r Hr.
      apply in_map_iff in Hr as (r0 & <- & _). apply slice_empty. }
  assert (Hs : size (slice2 img y1 y2 x1 x2) = 0).
  { rewrite size_slice2. unfold slice_len.
    destruct H as [<-|<-]; rewrite Nat.sub_diag; lia. }
  rewrite Hf, Hs. reflexivity.
Qed.

(** Without scikit-image, a scale that asks for more rows or more columns
    than the image has (upsampling) averages empty blocks: every entry of
    the template is nan. *)
Theorem downsample_upsampling_nan (env : Env) (img : ndarray) (s : float)
  (nh nw : Z) :
  skimage_transform_resize env = None ->
  Py.int (float_of_nat (fst (shape img)) / s)%float = Ok nh ->
  Py.int (float_of_nat (snd (shape img)) / s)%float = Ok nw ->
  (1 <= nh)%Z -> (1 <= nw)%Z ->
  (Z.of_nat (fst (shape img)) < nh \/ Z.of_nat (snd (shape img)) < nw)%Z ->
  _downsample env img (NpFloat64 s) = Ok (constant (Z.to_nat nh) (Z.to_nat nw) nan).
Proof.
  intros Hnone Hnh Hnw H1 H2 Hup.
  rewrite (downsample_block_average env img (NpFloat64 s) _ _ nh nw Hnone
             eq_refl Hnh eq_refl Hnw H1 H2).
  f_equal. apply tabulate_constant. intros i j. cbv zeta.
  apply mean_empty_block. destruct Hup as [Hup|Hup]; [left|right].
  - rewrite (Nat.div_small (fst (shape img)) (Z.to_nat nh)) by lia.
    now rewrite !Nat.mul_0_r.
  - rewrite (Nat.div_small (snd (shape img)) (Z.to_nat nw)) by lia.
    now rewrite !Nat.mul_0_r.
Qed.

Lemma downsample_upsampling_nan_witness :
  _downsample scipy_env (band_left 10 10 3) (NpFloat64 0.5)
  = Ok (constant (Z.to_nat 20) (Z.to_nat 20) nan).
Proof.
  apply (downsample_upsampling_nan scipy_env (band_left 10 10 3) 0.5%float 20 20).
  - reflexivity.
  - vm_compute. reflexivity.
  - vm_compute. reflexivity.
  - lia.
  - lia.
  - left. simpl. lia.
Defined.

(** A Python [float] zero as factor raises [ZeroDivisionError] in
    [_downsample]; it is what the validator passes on when the high-mag
    image has no rows. *)
Lemma downsample_zero_factor (env : Env) (img : ndarray) :
  _downsample env img (PyFloat 0) = Raise ZeroDivisionError.
Proof. reflexivity. Qed.

(** ** The validator's answers *)

Lemma validate_zoom_match_cases (env : Env) (low_mag_img high_mag_img : ndarray)
  (x1 y1 x2 y2 : Z) (threshold : float) (v : validation) :
  validate_zoom_match env low_mag_img high_mag_img (x1, y1, x2, y2) threshold = Ok v ->
  (size (slice2 low_mag_img y1 y2 x1 x2) = 0 /\ v = empty_region) \/
  (size (slice2 low_mag_img y1 y2 x1 x2) <> 0 /\
   exists c, v = verdict c threshold).
Proof.
  unfold validate_zoom_match.
  destruct (size (slice2 low_mag_img y1 y2 x1 x2) =? 0) eqn:E.
  - intros [= <-]. left. apply Nat.eqb_eq in E. now split.
  - apply Nat.eqb_neq in E. intros H. right. split; [exact E|].
    match type of H with
    | Py.bind ?e _ = _ => destruct e as [hr|e']; simpl in H; [|discriminate]
    end.
    match type of H with
    | Py.bind ?e _ = _ => destruct e as [prod|e']; simpl in H; [|discriminate]
    end.
    injection H as <-. now exists (mean prod).
Qed.

(** Whatever the validator answers, the verdict and the message agree:
    [valid] exactly with the validated message, and then the correlation is
    a number (not a nan) strictly above the threshold; the below-threshold
    message carries the reported correlation and the threshold, which it
    does not exceed; the empty-region message comes only with the empty
    crop and correlation 0. *)
Theorem validate_zoom_match_verdict (env : Env) (low_mag_img high_mag_img : ndarray)
  (x1 y1 x2 y2 : Z) (threshold : float) (v : validation) :
  validate_zoom_match env low_mag_img high_mag_img (x1, y1, x2, y2) threshold = Ok v ->
  (valid v = true <-> v_message v = MatchValidated) /\
  (valid v = true ->
   (threshold <? v_correlation v)%float = true /\
   is_nan (v_correlation v) = false /\ is_nan threshold = false) /\
  (forall c t, v_message v = BelowThreshold c t ->
     c = v_correlation v /\ t = threshold /\ valid v = false /\
     (threshold <? c)%float = false) /\
  (v_message v = EmptyRegion ->
   v = empty_region /\ size (slice2 low_mag_img y1 y2 x1 x2) = 0).
Proof.
  intros H.
  destruct (validate_zoom_match_cases _ _ _ _ _ _ _ _ _ H) as [[Hs ->]|[Hs [c ->]]].
  - simpl. repeat split; try discriminate; try assumption.
  - unfold verdict. simpl. destruct (threshold <? c)%float eqn:E.
    + repeat split; try discriminate; try reflexivity; try assumption.
      * exact (proj2 (ltb_true_not_nan _ _ E)).
      * exact (proj1 (ltb_true_not_nan _ _ E)).
    + repeat split; try discriminate; try congruence.
Qed.

Lemma validate_zoom_match_verdict_witness :
  let v := sample_verdict in
  (valid v = true <-> v_message v = MatchValidated) /\
  (valid v = true ->
   (threshold_default <? v_correlation v)%float = true /\
   is_nan (v_correlation v) = false /\ is_nan threshold_default = false) /\
  (forall c t, v_message v = BelowThreshold c t ->
     c = v_correlation v /\ t = threshold_default /\ valid v = false /\
     (threshold_default <? c)%float = false) /\
  (v_message v = EmptyRegion ->
   v = empty_region /\ size (slice2 overview 3 15 6 18) = 0).
Proof.
  apply (validate_zoom_match_verdict scipy_env overview detail 6 3 18 15
           threshold_default).
  vm_compute. reflexivity.
Defined.

(** ** The crop *)

Lemma slice_index_le (len : nat) (i : Z) : slice_index len i <= len.
Proof. unfold slice_index. destruct (i <? 0)%Z eqn:E; lia. Qed.

Lemma slice_length {X} (l : list X) (a b : Z) :
  length (slice l a b) = slice_len (length l) a b.
Proof.
  unfold slice, slice_len. cbv zeta. rewrite length_firstn, length_skipn.
  pose proof (slice_index_le (length l) b). lia.
Qed.

Lemma slice_nth {X} (l : list X) (a b : Z) (i : nat) (d : X) :
  i < slice_len (length l) a b ->
  nth i (slice l a b) d = nth (slice_index (length l) a + i) l d.
Proof.
  unfold slice, slice_len. cbv zeta. intros H. rewrite nth_firstn.
  replace (i <? _) with true by (symmetry; now apply Nat.ltb_lt).
  apply nth_skipn.
Qed.

Lemma slice_In {X} (l : list X) (a b : Z) (x : X) : In x (slice l a b) -> In x l.
Proof.
  unfold slice. cbv zeta. intros H.
  set (lo := slice_index (length l) a) in *.
  set (n := slice_index (length l) b - lo) in *.
  rewrite <- (firstn_skipn lo l). apply in_or_app. right.
  rewrite <- (firstn_skipn n (skipn lo l)). apply in_or_app. now left.
Qed.

Lemma slice2_wf (a : ndarray) (y1 y2 x1 x2 : Z) : wf a -> wf (slice2 a y1 y2 x1 x2).
Proof.
  intros [Hh Hw]. split; simpl.
  - now rewrite length_map, slice_length, Hh.
  - apply Forall_forall. intros r Hr. apply in_map_iff in Hr as (r0 & <- & Hr0).
    rewrite slice_length. rewrite Forall_forall in Hw. rewrite Hw; [reflexivity|].
    exact (slice_In _ _ _ _ Hr0).
Qed.

(** A box of non-negative coordinates is cropped at its literal position
    and clipped at the image's edges: the crop is well formed, of shape
    [(min(y2, H) - min(y1, H), min(x2, W) - min(x1, W))] -- the box's own
    [(y2 - y1, x2 - x1)] when it lies inside the image -- and its entry
    [(i, j)] is the image's entry [(y1 + i, x1 + j)]. *)
Theorem validate_crop_literal (low_mag_img : ndarray) (x1 y1 x2 y2 : Z) :
  wf low_mag_img ->
  (0 <= x1)%Z -> (0 <= y1)%Z -> (0 <= x2)%Z -> (0 <= y2)%Z ->
  let H := fst (shape low_mag_img) in
  let W := snd (shape low_mag_img) in
  let region := slice2 low_mag_img y1 y2 x1 x2 in
  wf region /\
  shape region = (Nat.min (Z.to_nat y2) H - Nat.min (Z.to_nat y1) H,
                  Nat.min (Z.to_nat x2) W - Nat.min (Z.to_nat x1) W) /\
  ((x2 <= Z.of_nat W)%Z -> (y2 <= Z.of_nat H)%Z ->
   shape region = (Z.to_nat (y2 - y1), Z.to_nat (x2 - x1))) /\
  (forall i j, i < fst (shape region) -> j < snd (shape region) ->
     nth j (nth i (rows region) []) 0%float
     = nth (Z.to_nat x1 + j) (nth (Z.to_nat y1 + i) (rows low_mag_img) []) 0%float).
Proof.
  intros Hwf Hx1 Hy1 Hx2 Hy2 H W region.
  assert (Hshape : shape region
                   = (Nat.min (Z.to_nat y2) H - Nat.min (Z.to_nat y1) H,
                      Nat.min (Z.to_nat x2) W - Nat.min (Z.to_nat x1) W)).
  { simpl. unfold slice_len. now rewrite !slice_index_nonneg by assumption. }
  split; [now apply slice2_wf|]. split; [exact Hshape|]. split.
  - intros Hx Hy. rewrite Hshape. f_equal; lia.
  - intros i j Hi Hj. rewrite Hshape in Hi, Hj. simpl in Hi, Hj.
    destruct Hwf as [Hh Hw]. fold H in Hh. fold W in Hw.
    simpl rows.
    assert (Hrow : i < slice_len (length (rows low_mag_img)) y1 y2).
    { rewrite Hh. unfold slice_len.
      rewrite !slice_index_nonneg by assumption. exact Hi. }
    rewrite (nth_indep _ [] (slice [] x1 x2))
      by (now rewrite length_map, slice_length).
    rewrite (map_nth (fun r => slice r x1 x2)).
    rewrite (slice_nth _ _ _ _ _ Hrow), Hh, slice_index_nonneg by assumption.
    replace (Nat.min (Z.to_nat y1) H) with (Z.to_nat y1) by lia.
    set (r := nth (Z.to_nat y1 + i) (rows low_mag_img) []).
    assert (Hr : length r = W).
    { rewrite Forall_forall in Hw. apply Hw. apply nth_In. rewrite Hh. lia. }
    rewrite slice_nth
      by (rewrite Hr; unfold slice_len;
          rewrite !slice_index_nonneg by assumption; exact Hj).
    rewrite Hr, slice_index_nonneg by assumption.
    replace (Nat.min (Z.to_nat x1) W) with (Z.to_nat x1) by lia.
    reflexivity.
Qed.

Lemma validate_crop_literal_witness :
  let region := slice2 overview 3 15 6 18 in
  wf region /\
  shape region = (Nat.min (Z.to_nat 15) 24 - Nat.min (Z.to_nat 3) 24,
                  Nat.min (Z.to_nat 18) 24 - Nat.min (Z.to_nat 6) 24) /\
  ((18 <= Z.of_nat 24)%Z -> (15 <= Z.of_nat 24)%Z ->
   shape region = (Z.to_nat (15 - 3), Z.to_nat (18 - 6))) /\
  (forall i j, i < fst (shape region) -> j < snd (shape region) ->
     nth j (nth i (rows region) []) 0%float
     = nth (Z.to_nat 6 + j) (nth (Z.to_nat 3 + i) (rows overview) []) 0%float).
Proof.
  apply (validate_crop_literal overview 6 3 18 15).
  - apply tabulate_wf.
  - lia.
  - lia.
  - lia.
  - lia.
Defined.

(** ** From the locator to the validator *)

(** The box of a returned match whose template is no larger than the
    low-mag image is cropped to exactly the template's shape
    [(y2 - y1, x2 - x1)], at least 10 x 10: handed to the validator it
    never gets the empty-region answer. *)
Theorem found_box_validates_nonempty (env : Env)
  (low_mag_img high_mag_img : ndarray) (scale_range : float * float) (steps : Z)
  (r : match_result) :
  sobel_keeps_shape env ->
  correlate2d_valid_shape env ->
  find_zoom_region env low_mag_img high_mag_img scale_range steps = Ok r ->
  let '(x1, y1, x2, y2) := box r in
  (x2 - x1 <= Z.of_nat (snd (shape low_mag_img)))%Z ->
  (y2 - y1 <= Z.of_nat (fst (shape low_mag_img)))%Z ->
  shape (slice2 low_mag_img y1 y2 x1 x2) = (Z.to_nat (y2 - y1), Z.to_nat (x2 - x1)) /\
  10 <= Z.to_nat (y2 - y1) /\ 10 <= Z.to_nat (x2 - x1) /\
  (forall env' high threshold v,
     validate_zoom_match env' low_mag_img high (box r) threshold = Ok v ->
     v_message v <> EmptyRegion).
Proof.
  intros Hs Hc H.
  destruct (find_zoom_region_won _ _ _ _ _ _ H)
    as (lg & hg & scales & k & s & d & corr & idx & row & col & Hl & Hh & _ & W).
  destruct W as [_ Hcand Hth Htw _ Hpos _ _ Hbox _ _ _ _ _].
  rewrite Hbox. intros Hw1 Hh1.
  destruct (sobel_magnitude_shape env low_mag_img Hs) as (g & Hg & Hshape).
  rewrite Hl in Hg. injection Hg as <-.
  destruct (candidate_not_skipped _ _ _ _ _ _ _ Hcand) as (_ & _ & _ & Hfft & _).
  assert (Hfit_h : fst (shape d) <= fst (shape lg)) by (rewrite Hshape; lia).
  assert (Hfit_w : snd (shape d) <= snd (shape lg)) by (rewrite Hshape; lia).
  pose proof (fft_correlate_shape env lg d corr Hc Hfft Hfit_h Hfit_w) as Hcs.
  destruct (unravel_index_bounds _ _ _ _ Hpos) as (Hr & Hcol & _).
  rewrite Hcs in Hr, Hcol. simpl in Hr, Hcol. rewrite Hshape in Hr, Hcol.
  assert (Hcrop : shape (slice2 low_mag_img (Z.of_nat row)
                           (Z.of_nat (row + fst (shape d)))
                           (Z.of_nat col) (Z.of_nat (col + snd (shape d))))
                  = (Z.to_nat (Z.of_nat (row + fst (shape d)) - Z.of_nat row),
                     Z.to_nat (Z.of_nat (col + snd (shape d)) - Z.of_nat col))).
  { simpl. unfold slice_len. rewrite !slice_index_nonneg by lia. f_equal; lia. }
  split; [exact Hcrop|]. split; [lia|]. split; [lia|].
  intros env' high threshold v Hv.
  refine (validate_zoom_match_nonempty env' low_mag_img high _ _ _ _ threshold v _ Hv).
  unfold size. rewrite Hcrop. simpl. apply Nat.neq_mul_0. lia.
Qed.

Lemma found_box_validates_nonempty_witness :
  let '(x1, y1, x2, y2) := box sample_match in
  (x2 - x1 <= Z.of_nat (snd (shape overview)))%Z ->
  (y2 - y1 <= Z.of_nat (fst (shape overview)))%Z ->
  shape (slice2 overview y1 y2 x1 x2) = (Z.to_nat (y2 - y1), Z.to_nat (x2 - x1)) /\
  10 <= Z.to_nat (y2 - y1) /\ 10 <= Z.to_nat (x2 - x1) /\
  (forall env' high threshold v,
     validate_zoom_match env' overview high (box sample_match) threshold = Ok v ->
     v_message v <> EmptyRegion).
Proof.
  apply (found_box_validates_nonempty scipy_env overview detail
           (1%float, 3%float) 3 sample_match).
  - exact scipy_env_sobel.
  - exact scipy_env_correlate2d.
  - vm_compute. reflexivity.
Defined.

(** The sample: the located box validates against the detail image. *)
Example sample_match_validates :
  validate_zoom_match scipy_env overview detail (box sample_match)
    threshold_default = Ok sample_verdict /\
  valid sample_verdict = true.
Proof. split; [vm_compute; reflexivity | reflexivity]. Qed.

(** ** The validator without scikit-image *)

Lemma binop_broadcastable (f : float -> float -> float) (a b : ndarray) :
  (broadcastable (shape a) (shape b) = false ->
   binop f a b = Raise (ValueError BroadcastMismatch)) /\
  (broadcastable (shape a) (shape b) = true -> exists c, binop f a b = Ok c).
Proof.
  unfold broadcastable, binop.
  destruct (broadcast_dim (fst (shape a)) (fst (shape b))) as [h|];
    destruct (broadcast_dim (snd (shape a)) (snd (shape b))) as [w|];
    split; intros H; try discriminate; try reflexivity; eexists; reflexivity.
Qed.

(** Without scikit-image the validator resamples the high-mag image by
    [_downsample] with the ratio of the heights, and its outcome on a
    non-empty crop is decided by the two shapes: an exception of
    [_downsample] is passed on; shapes that do not broadcast raise the
    broadcasting [ValueError]; otherwise the product of the normalized crop
    and the normalized resampled image is defined, and the answer is the
    verdict on the mean of that product. *)
Theorem validate_zoom_match_fallback (env : Env)
  (low_mag_img high_mag_img : ndarray) (x1 y1 x2 y2 : Z) (threshold : float) :
  skimage_transform_resize env = None ->
  size (slice2 low_mag_img y1 y2 x1 x2) <> 0 ->
  let region := slice2 low_mag_img y1 y2 x1 x2 in
  let factor := (float_of_nat (fst (shape high_mag_img))
                 / float_of_nat (fst (shape region)))%float in
  let outcome :=
    validate_zoom_match env low_mag_img high_mag_img (x1, y1, x2, y2) threshold in
  match _downsample env high_mag_img (PyFloat factor) with
  | Raise e => outcome = Raise e
  | Ok high_resized =>
      if broadcastable (shape region) (shape high_resized)
      then exists prod,
             binop PrimFloat.mul (standardize region) (standardize high_resized)
             = Ok prod /\
             outcome = Ok (verdict (mean prod) threshold)
      else outcome = Raise (ValueError BroadcastMismatch)
  end.
Proof.
  intros Hnone Hne region factor outcome. subst outcome.
  unfold validate_zoom_match. apply Nat.eqb_neq in Hne. rewrite Hne, Hnone.
  fold region. fold factor.
  destruct (_downsample env high_mag_img (PyFloat factor)) as [hr|e];
    [|reflexivity].
  cbv beta iota delta [Py.bind].
  fold (standardize region). fold (standardize hr).
  destruct (binop_broadcastable PrimFloat.mul (standardize region) (standardize hr))
    as [Hbad Hgood].
  change (shape (standardize region)) with (shape region) in Hbad, Hgood.
  change (shape (standardize hr)) with (shape hr) in Hbad, Hgood.
  destruct (broadcastable (shape region) (shape hr)).
  - destruct (Hgood eq_refl) as (prod & Hp). exists prod. split; [exact Hp|].
    now rewrite Hp.
  - now rewrite (Hbad eq_refl).
Qed.

Lemma validate_zoom_match_fallback_witness :
  let region := slice2 overview 3 15 6 18 in
  let factor := (float_of_nat (fst (shape detail))
                 / float_of_nat (fst (shape region)))%float in
  let outcome :=
    validate_zoom_match scipy_env overview detail (6, 3, 18, 15)%Z
      threshold_default in
  match _downsample scipy_env detail (PyFloat factor) with
  | Raise e => outcome = Raise e
  | Ok high_resized =>
      if broadcastable (shape region) (shape high_resized)
      then exists prod,
             binop PrimFloat.mul (standardize region) (standardize high_resized)
             = Ok prod /\
             outcome = Ok (verdict (mean prod) threshold_default)
      else outcome = Raise (ValueError BroadcastMismatch)
  end.
Proof.
  apply (validate_zoom_match_fallback scipy_env overview detail 6 3 18 15
           threshold_default).
  - reflexivity.
  - vm_compute. discriminate.
Defined.

(** ** Skipped scales *)

(** Skipped scales contribute nothing: dropping them from the list of
    scales leaves the outcome of the scan, result or exception, as it is. *)
Theorem scan_ignores_skipped (env : Env) (low_grad high_grad : ndarray)
  (best : best_result) (scales : list float) :
  scan env low_grad high_grad best
    (filter (fun s => negb (is_skipped env low_grad high_grad s)) scales)
  = scan env low_grad high_grad best scales.
Proof.
  revert best. induction scales as [|s rest IH]; intros best; [reflexivity|].
  simpl filter. unfold is_skipped at 1.
  destruct (candidate env low_grad high_grad s) as [[o|]|e] eqn:Hc; simpl negb;
    cbv iota; try (simpl; destruct (scan_scale env low_grad high_grad best s);
                   simpl; [apply IH | reflexivity]).
  simpl. rewrite (scan_scale_unchanged env low_grad high_grad best s None Hc I).
  simpl. apply IH.
Qed.

(** The sample: at the scales 1, 2, 3, 4 the last two templates (8 x 8 and
    6 x 6) are skipped. *)
Example scan_ignores_skipped_sample :
  exists low_grad high_grad,
    _sobel_magnitude scipy_env overview = Ok low_grad /\
    _sobel_magnitude scipy_env detail = Ok high_grad /\
    filter (fun s => negb (is_skipped scipy_env low_grad high_grad s))
      [1%float; 2%float; 3%float; 4%float] = [1%float; 2%float].
Proof.
  do 2 eexists. split; [vm_compute; reflexivity|].
  split; [vm_compute; reflexivity|]. vm_compute. reflexivity.
Qed.

(** ** Templates larger than the search image, scored *)





(** A template larger than the search image in both dimensions: scipy
    swaps the operands, the 3 x 4 surface has its peak 116.2 at (1, 2), and
    the 12 x 13 template is returned as the match in the 10 x 10 image. *)
Example oversized_candidate_wins :
  exists r,
    find_zoom_region scipy_env (patch 10 10 2 6 3 7) (patch 12 13 3 7 4 8)
      (1%float, 1%float) 1 = Ok r /\
    box r = (2, 1, 15, 13)%Z /\ scale r = 1%float /\
    (116 <? correlation r)%float = true.
Proof.
  eexists. split; [vm_compute; reflexivity|]. repeat split.
Qed.
